(** * easyVoice: the CosyVoice synthesis session

    A shallow embedding of [packages/backend/src/tts/engines/cosyVoice.ts]:
    the parameter mapping of [synthesize], the three WebSocket callbacks it
    installs, and the runs of a session over a history of transport events.

    The transport, the file system, the logger, the stream handed to the
    caller and the Promise are not part of the file; every call the session
    makes on them is recorded, in order, as an [Action]. *)

From Stdlib Require Import ZArith List String Ascii Strings.Byte Bool Lia.
From Stdlib Require Import Floats.SpecFloat.
Import ListNotations.

Set Warnings "-register-all".

Open Scope string_scope.
Open Scope list_scope.
Open Scope Z_scope.

(** * JavaScript numbers

    A JS Number is an IEEE 754 binary64 value.  [spec_float] is the
    Standard Library's inductive description of such values: signed zeros,
    signed infinities, NaN, and finite values [(-1)^s * m * 2^e].
    Comparison and rounding are defined here on the exact value [m * 2^e],
    so they do not depend on the mantissa being normalised. *)
Definition number : Set := spec_float.

Module Number.

Definition prec : Z := 53.
Definition emax : Z := 1024.

Definition NaN : number := S754_nan.
Definition pos_infinity : number := S754_infinity false.
Definition neg_infinity : number := S754_infinity true.

(** The Number whose value is the integer [n]; [negzero] is the sign
    given to a zero result. *)
Definition of_Z (negzero : bool) (n : Z) : number :=
  match n with
  | Z0 => S754_zero negzero
  | Zpos p => S754_finite false p 0
  | Zneg p => S754_finite true p 0
  end.

(** An integer literal of the source. *)
Definition of_int (n : Z) : number := of_Z false n.

(** [x * y]: IEEE multiplication, rounded to nearest, ties to even. *)
Definition mul (x y : number) : number := SFmul prec emax x y.

(** [x / y]; used to write decimal literals such as [0.285]. *)
Definition div (x y : number) : number := SFdiv prec emax x y.

(** A finite Number as a pair [(z, e)] of value [z * 2^e]. *)
Definition scaled (x : number) : option (Z * Z) :=
  match x with
  | S754_zero _ => Some (0, 0)
  | S754_finite s m e => Some (cond_Zopp s (Zpos m), e)
  | _ => None
  end.

Definition compare_scaled (a b : Z * Z) : comparison :=
  let e := Z.min (snd a) (snd b) in
  Z.compare (fst a * 2 ^ (snd a - e)) (fst b * 2 ^ (snd b - e)).

(** Numeric comparison; [None] when an operand is NaN.  The two zeros
    compare equal. *)
Definition compare (x y : number) : option comparison :=
  match x, y with
  | S754_nan, _ | _, S754_nan => None
  | S754_infinity sx, S754_infinity sy =>
      Some (match sx, sy with
            | true, false => Lt
            | false, true => Gt
            | _, _ => Eq
            end)
  | S754_infinity sx, _ => Some (if sx then Lt else Gt)
  | _, S754_infinity sy => Some (if sy then Gt else Lt)
  | _, _ =>
      match scaled x, scaled y with
      | Some a, Some b => Some (compare_scaled a b)
      | _, _ => None
      end
  end.

Definition lt (x y : number) : bool :=
  match compare x y with Some Lt => true | _ => false end.

Definition gt (x y : number) : bool :=
  match compare x y with Some Gt => true | _ => false end.

Definition is_nan (x : number) : bool :=
  match x with S754_nan => true | _ => false end.

Definition is_pos_zero (x : number) : bool :=
  match x with S754_zero false => true | _ => false end.

Definition is_neg_zero (x : number) : bool :=
  match x with S754_zero true => true | _ => false end.

(** ToBoolean on a Number: [+0], [-0] and NaN are falsy. *)
Definition truthy (x : number) : bool :=
  match x with
  | S754_zero _ | S754_nan => false
  | _ => true
  end.

(** The integer closest to [z * 2^e], ties towards +Infinity:
    [floor (z * 2^e + 1/2)]. *)
Definition round_half_up (z e : Z) : Z :=
  if 0 <=? e then z * 2 ^ e
  else (2 * z + 2 ^ (- e)) / 2 ^ (1 - e).

End Number.

(** The functions of the [Math] object that the source calls. *)
Module Math.

(** [Math.min(...args)]: the loop of the language specification, started
    at [+Infinity]. *)
Fixpoint min_loop (lowest : number) (args : list number) : number :=
  match args with
  | [] => lowest
  | n :: rest =>
      if Number.is_nan n then Number.NaN
      else if Number.is_neg_zero n && Number.is_pos_zero lowest then min_loop n rest
      else if Number.lt n lowest then min_loop n rest
      else min_loop lowest rest
  end.

Definition min (args : list number) : number :=
  min_loop Number.pos_infinity args.

(** [Math.max(...args)], started at [-Infinity]. *)
Fixpoint max_loop (highest : number) (args : list number) : number :=
  match args with
  | [] => highest
  | n :: rest =>
      if Number.is_nan n then Number.NaN
      else if Number.is_pos_zero n && Number.is_neg_zero highest then max_loop n rest
      else if Number.gt n highest then max_loop n rest
      else max_loop highest rest
  end.

Definition max (args : list number) : number :=
  max_loop Number.neg_infinity args.

(** [Math.round(x)]: NaN, the infinities and the zeros are returned
    unchanged; a value in [[-0.5, 0)] gives [-0].  The result is written
    with exponent 0, also when [x] is an integer already. *)
Definition round (x : number) : number :=
  match x with
  | S754_finite s m e =>
      Number.of_Z s (Number.round_half_up (cond_Zopp s (Zpos m)) e)
  | _ => x
  end.

End Math.

(** ** The parameter mapping of [synthesize] *)

(** The literal [0.5]. *)
Definition half : number := S754_finite false 1 (-1).

(** [cosySpeed], source line 34:
    [Math.max(0.5, Math.min(2.0, speed))]. *)
Definition cosySpeed (speed : number) : number :=
  Math.max [half; Math.min [Number.of_int 2; speed]].

(** [cosyVolume], source line 38:
    [Math.round(Math.max(0, Math.min(100, volume * 100))) || 50]. *)
Definition cosyVolume (volume : number) : number :=
  let r :=
    Math.round
      (Math.max [Number.of_int 0;
                 Math.min [Number.of_int 100;
                           Number.mul volume (Number.of_int 100)]]) in
  if Number.truthy r then r else Number.of_int 50.

(** [cosyPitch], source line 43: a constant. *)
Definition cosyPitch : number := Number.of_int 1.

(** * JavaScript values

  The values the message handler inspects come out of [JSON.parse]:
  null, booleans, numbers, strings, arrays and plain objects whose
  prototype is [Object.prototype].  [undefined] is what reading a missing
  property gives. *)
Module JS.

Inductive value : Type :=
| undefined
| null
| boolean (b : bool)
| num (n : number)
| str (s : string)
| array (elements : list value)
| object (properties : list (string * value)).

(** What a [catch] clause can receive in the handler. *)
Inductive exn : Type :=
| SyntaxError
| TypeError.

Inductive completion (A : Type) : Type :=
| Normal (a : A)
| Throw (e : exn).
Arguments Normal {A} a.
Arguments Throw {A} e.

(** Own data property of an object built by [JSON.parse]; for a key
    that occurs twice in the text the last occurrence wins. *)
Fixpoint own_property (properties : list (string * value)) (name : string)
  : option value :=
  match properties with
  | [] => None
  | (k, v) :: rest =>
      match own_property rest name with
      | Some v' => Some v'
      | None => if String.eqb k name then Some v else None
      end
  end.

(** The property names the session reads: none of them is defined on a
    built-in prototype, so a read that finds no own property is
    [undefined]. *)
Inductive field : Set :=
| header | event | task_id | error_code | error_message.

Definition field_name (f : field) : string :=
  match f with
  | header => "header"
  | event => "event"
  | task_id => "task_id"
  | error_code => "error_code"
  | error_message => "error_message"
  end.

(** [v.f]: a TypeError on [undefined] and [null], the own property on an
    object, [undefined] on everything else. *)
Definition member (v : value) (f : field) : completion value :=
  match v with
  | undefined | null => Throw TypeError
  | object properties =>
      match own_property properties (field_name f) with
      | Some x => Normal x
      | None => Normal undefined
      end
  | _ => Normal undefined
  end.

(** ToBoolean. *)
Definition truthy (v : value) : bool :=
  match v with
  | undefined | null => false
  | boolean b => b
  | num n => Number.truthy n
  | str s => negb (String.eqb s EmptyString)
  | array _ | object _ => true
  end.

(** [a || b]. *)
Definition or (a b : value) : value := if truthy a then a else b.

(** [v === s] for a string literal [s]. *)
Definition strict_eq_string (v : value) (s : string) : bool :=
  match v with
  | str s' => String.eqb s' s
  | _ => false
  end.

(** Whether ToString(v) throws.  A parsed object with an own
    ["toString"] key hides [Object.prototype.toString] behind a value
    that is not callable, [Object.prototype.valueOf] returns the object
    itself, and the conversion ends in a TypeError.  An array is joined,
    converting each element ([null] gives the empty string). *)
Fixpoint ToString_throws (v : value) : bool :=
  match v with
  | object properties =>
      match own_property properties "toString" with
      | Some _ => true
      | None => false
      end
  | array elements => existsb ToString_throws elements
  | _ => false
  end.

(** A substitution [${v}] of a template literal: it converts [v] to a
    string, or throws. *)
Definition interpolate (v : value) : completion value :=
  if ToString_throws v then Throw TypeError else Normal v.

(** [s.replace(pattern, replacement)] with a string pattern: the first
    occurrence only. *)
Fixpoint replace (pattern replacement s : string) : string :=
  if String.prefix pattern s
  then (replacement ++ substring (String.length pattern) (String.length s) s)%string
  else match s with
       | EmptyString => EmptyString
       | String c s' => String c (replace pattern replacement s')
       end.

(** [s.replace(/-/g, '')]. *)
Fixpoint remove_hyphens (s : string) : string :=
  match s with
  | EmptyString => EmptyString
  | String c s' =>
      if Ascii.eqb c "-" then remove_hyphens s' else String c (remove_hyphens s')
  end.

(** An [Error] object; [message] is the constructor's argument, which
    for a string is the error's message. *)
Record Error : Type := new_Error { message : value }.

End JS.

(** * A JSON reader for the frames of the examples

  [JSON.parse] is a built-in; the session is defined for an arbitrary
  [JSON_parse].  The concrete runs below use this reader, which accepts
  JSON texts whose numbers are integers and whose strings have no
  [\u] escape, and rejects everything else. *)
Module JSON.
Import JS.

Definition is_ws (c : ascii) : bool :=
  match c with
  | " " | "009" | "010" | "013" => true
  | _ => false
  end%char.

Fixpoint skip_ws (s : string) : string :=
  match s with
  | String c s' => if is_ws c then skip_ws s' else s
  | EmptyString => s
  end.

Definition digit (c : ascii) : option Z :=
  let n := Z.of_nat (nat_of_ascii c) in
  if (48 <=? n) && (n <=? 57) then Some (n - 48) else None.

Fixpoint digits (acc : Z) (s : string) : Z * string :=
  match s with
  | String c s' =>
      match digit c with
      | Some d => digits (10 * acc + d) s'
      | None => (acc, s)
      end
  | EmptyString => (acc, s)
  end.

Definition starts_fraction_or_exponent (s : string) : bool :=
  match s with
  | String c _ => Ascii.eqb c "." || Ascii.eqb c "e" || Ascii.eqb c "E"
  | EmptyString => false
  end.

(** An optional minus sign, then [0] or a digit string without a leading
    zero, not followed by a fraction or an exponent. *)
Definition integer (s : string) : option (value * string) :=
  let '(negative, s1) :=
    match s with
    | String "-" s' => (true, s')
    | _ => (false, s)
    end in
  match s1 with
  | String c s2 =>
      match digit c with
      | Some d =>
          let '(n, rest) := if d =? 0 then (0, s2) else digits d s2 in
          if starts_fraction_or_exponent rest then None
          else if match rest with
                  | String c' _ => match digit c' with Some _ => true | None => false end
                  | EmptyString => false
                  end then None
          else Some (num (SpecFloat.binary_normalize Number.prec Number.emax
                            (if negative then - n else n) 0 negative), rest)
      | None => None
      end
  | EmptyString => None
  end.

Definition quote : ascii := ascii_of_nat 34.
Definition backslash : ascii := ascii_of_nat 92.

Definition unescape (e : ascii) : option ascii :=
  if Ascii.eqb e quote then Some quote
  else if Ascii.eqb e backslash then Some backslash
  else match e with
       | "/" => Some "/"
       | "b" => Some "008"
       | "f" => Some "012"
       | "n" => Some "010"
       | "r" => Some "013"
       | "t" => Some "009"
       | _ => None
       end%char.

(** The characters after an opening quote, up to the closing one;
    [escaped] tells that the previous character was a backslash. *)
Fixpoint string_body (escaped : bool) (s : string) : option (string * string) :=
  match s with
  | EmptyString => None
  | String c rest =>
      if escaped then
        match unescape c, string_body false rest with
        | Some c', Some (body, rest') => Some (String c' body, rest')
        | _, _ => None
        end
      else if Ascii.eqb c quote then Some (EmptyString, rest)
      else if Ascii.eqb c backslash then string_body true rest
      else if (nat_of_ascii c <? 32)%nat then None
      else match string_body false rest with
           | Some (body, rest') => Some (String c body, rest')
           | None => None
           end
  end.

Definition keyword (k : string) (v : value) (s : string) : option (value * string) :=
  if String.prefix k s
  then Some (v, substring (String.length k) (String.length s) s)
  else None.

Definition starts_with (c : ascii) (s : string) : option string :=
  match s with
  | String c' rest => if Ascii.eqb c c' then Some rest else None
  | EmptyString => None
  end.

Fixpoint value_ (fuel : nat) (s : string) {struct fuel} : option (value * string) :=
  match fuel with
  | O => None
  | S fuel' =>
      match skip_ws s with
      | String "{" rest =>
          match skip_ws rest with
          | String "}" rest' => Some (object [], rest')
          | _ =>
              match members fuel' rest with
              | Some (ps, rest') => Some (object ps, rest')
              | None => None
              end
          end
      | String "[" rest =>
          match skip_ws rest with
          | String "]" rest' => Some (array [], rest')
          | _ =>
              match elements fuel' rest with
              | Some (vs, rest') => Some (array vs, rest')
              | None => None
              end
          end
      | String "t" _ as s' => keyword "true" (boolean true) s'
      | String "f" _ as s' => keyword "false" (boolean false) s'
      | String "n" _ as s' => keyword "null" null s'
      | s' =>
          match starts_with quote s' with
          | Some rest =>
              match string_body false rest with
              | Some (body, rest') => Some (str body, rest')
              | None => None
              end
          | None => integer s'
          end
      end
  end
with members (fuel : nat) (s : string) {struct fuel}
  : option (list (string * value) * string) :=
  match fuel with
  | O => None
  | S fuel' =>
      match starts_with quote (skip_ws s) with
      | Some rest =>
          match string_body false rest with
          | Some (key, rest1) =>
              match skip_ws rest1 with
              | String ":" rest2 =>
                  match value_ fuel' rest2 with
                  | Some (v, rest3) =>
                      match skip_ws rest3 with
                      | String "}" rest4 => Some ([(key, v)], rest4)
                      | String "," rest4 =>
                          match members fuel' rest4 with
                          | Some (ps, rest5) => Some ((key, v) :: ps, rest5)
                          | None => None
                          end
                      | _ => None
                      end
                  | None => None
                  end
              | _ => None
              end
          | None => None
          end
      | None => None
      end
  end
with elements (fuel : nat) (s : string) {struct fuel}
  : option (list value * string) :=
  match fuel with
  | O => None
  | S fuel' =>
      match value_ fuel' s with
      | Some (v, rest) =>
          match skip_ws rest with
          | String "]" rest' => Some ([v], rest')
          | String "," rest' =>
              match elements fuel' rest' with
              | Some (vs, rest'') => Some (v :: vs, rest'')
              | None => None
              end
          | _ => None
          end
      | None => None
      end
  end.

Definition parse (text : string) : option value :=
  match value_ (S (String.length text)) text with
  | Some (v, rest) =>
      match skip_ws rest with
      | EmptyString => Some v
      | _ => None
      end
  | None => None
  end.

(** Frames are written with apostrophes where the JSON text has double
    quotes. *)
Fixpoint text (s : string) : string :=
  match s with
  | EmptyString => EmptyString
  | String c s' => String (if Ascii.eqb c "'" then quote else c) (text s')
  end.

End JSON.


(** * The CosyVoice engine: [cosyVoice.ts] *)

Definition Buffer : Type := list byte.

(** [Buffer.from(data)]: a copy of the bytes. *)
Definition Buffer_from (data : Buffer) : Buffer := data.

(** [Buffer.alloc(n)]: [n] zero bytes. *)
Definition Buffer_alloc (n : nat) : Buffer := repeat x00 n.

(** [Buffer.concat(list)]. *)
Definition Buffer_concat (chunks : list Buffer) : Buffer := List.concat chunks.

(** [data.toString()]: the bytes of a text frame as a string. *)
Definition toString (data : Buffer) : string := string_of_list_byte data.

Record CosyVoiceEngine : Type := {
  name : string;
  apiKey : string;
  url : string
}.

(** The constructor, source lines 13-18. *)
Definition new_CosyVoiceEngine (apiKey : string) : JS.Error + CosyVoiceEngine :=
  if String.eqb apiKey EmptyString
  then inl (JS.new_Error (JS.str "CosyVoice requires an API key."))
  else inr {| name := "cosyvoice";
              apiKey := apiKey;
              url := "wss://dashscope.aliyuncs.com/api-ws/v1/inference" |}.

(** Modelled from the spec: [TtsOptions] is declared in [../types], which is
    not among the sources.  The fields are those [synthesize] destructures
    (spec section 3); every one may be left out ([None] is [undefined]). *)
Record TtsOptions : Type := {
  voice : option string;
  format : option string;
  speed : option number;
  volume : option number;
  pitch : option number;
  stream : option bool;
  outputType : option string;
  output : option string
}.

(** A destructuring default, [{ x = d } = options]. *)
Definition default {A : Type} (d : A) (x : option A) : A :=
  match x with
  | Some a => a
  | None => d
  end.

(** Truthiness of an optional string such as [output]. *)
Definition truthy_string (s : option string) : bool :=
  match s with
  | Some s' => negb (String.eqb s' EmptyString)
  | None => false
  end.

(** ** Protocol commands (source lines 64-86, 113-124, 131-140) *)

Record Header : Type := {
  action : string;
  h_task_id : string;
  streaming : string
}.

Record Parameters : Type := {
  text_type : string;
  p_voice : string;
  p_format : string;
  sample_rate : number;
  p_volume : number;
  rate : number;
  p_pitch : number
}.

Inductive Command : Type :=
| RunTask (h : Header) (task_group task function model : string)
          (parameters : Parameters)
| ContinueTask (h : Header) (text : string)
| FinishTask (h : Header).

(** ** What a session does to the world *)

Inductive Resolution : Type :=
| ResolvedBuffer (b : Buffer)
| ResolvedStream.

Inductive LogLine : Type :=
| SendingRunTask (cmd : Command)
| ReceivedEvent (event task_id : JS.value)
| SendingContinueTask (cmd : Command)
| SendingFinishTask (cmd : Command)
| ResultGenerated
| TaskFinished
| TaskFailed (code message : JS.value)
| ErrorParsing (e : JS.exn)
| WebSocketError (err : JS.Error).

Inductive Level : Set := info | error.

(** The calls a session makes, in the order it makes them.  An error
    emitted on [outputStream] goes to the listeners the caller attached to
    the stream; what they do with it is theirs. *)
Inductive Action : Type :=
| createWriteStream (path : string)
| new_WebSocket (url : string) (headers : list (string * string))
| ws_send (cmd : Command)
| ws_close
| fileStream_write (b : Buffer)
| fileStream_end
| fileStream_destroy (err : JS.Error)
| outputStream_write (b : Buffer)
| outputStream_end
| outputStream_emit_error (err : JS.Error)
| resolve (r : Resolution)
| reject (err : JS.Error)
| logger (level : Level) (line : LogLine).

(** ** The handler monad

    A handler runs on the one mutable variable of the closure,
    [audioChunks]; it emits actions in order, and it completes normally or
    throws.  What was emitted before a throw stays emitted. *)

Definition M (A : Type) : Type :=
  list Buffer -> JS.completion A * list Buffer * list Action.

Definition ret {A : Type} (a : A) : M A :=
  fun chunks => (JS.Normal a, chunks, []).

Definition bind {A B : Type} (m : M A) (k : A -> M B) : M B :=
  fun chunks =>
    match m chunks with
    | (JS.Normal a, chunks1, acts1) =>
        let '(r, chunks2, acts2) := k a chunks1 in
        (r, chunks2, (acts1 ++ acts2)%list)
    | (JS.Throw e, chunks1, acts1) => (JS.Throw e, chunks1, acts1)
    end.

Definition emit (a : Action) : M unit :=
  fun chunks => (JS.Normal tt, chunks, [a]).

Definition lift {A : Type} (c : JS.completion A) : M A :=
  fun chunks => (c, chunks, []).

(** [audioChunks.push(buffer)]. *)
Definition audioChunks_push (buffer : Buffer) : M unit :=
  fun chunks => (JS.Normal tt, (chunks ++ [buffer])%list, []).

(** [audioChunks], read. *)
Definition audioChunks : M (list Buffer) :=
  fun chunks => (JS.Normal chunks, chunks, []).

(** [try { body } catch (e) { handler e }]. *)
Definition try_catch (body : M unit) (handler : JS.exn -> M unit) : M unit :=
  fun chunks =>
    match body chunks with
    | (JS.Normal a, chunks1, acts1) => (JS.Normal a, chunks1, acts1)
    | (JS.Throw e, chunks1, acts1) =>
        let '(r, chunks2, acts2) := handler e chunks1 in
        (r, chunks2, (acts1 ++ acts2)%list)
    end.

Declare Scope handler_scope.
Delimit Scope handler_scope with handler.
Notation "x <- m ;; k" := (bind m (fun x => k))
  (at level 61, m at next level, right associativity) : handler_scope.
Notation "m ;; k" := (bind m (fun _ => k))
  (at level 61, right associativity) : handler_scope.

(** ** The closure of one [synthesize] call *)

Record Session : Type := {
  s_text : string;
  s_voice : string;
  s_format : string;
  s_stream : bool;
  s_cosySpeed : number;
  s_cosyVolume : number;
  s_cosyPitch : number;
  s_fileStream : option string;
  s_taskId : string
}.

(** The transport's callbacks. *)
Inductive Event : Type :=
| ws_open
| ws_message (data : Buffer) (isBinary : bool)
| ws_error (err : JS.Error).

Section Synthesize.

(** [JSON.parse]; [None] when it throws a SyntaxError. *)
Variable JSON_parse : string -> option JS.value.

Definition JSON_parse_or_throw (text : string) : M JS.value :=
  match JSON_parse text with
  | Some v => ret v
  | None => lift (JS.Throw JS.SyntaxError)
  end.

Variable this : CosyVoiceEngine.
Variable s : Session.

Local Open Scope handler_scope.

Definition duplex (action : string) : Header :=
  {| action := action; h_task_id := s_taskId s; streaming := "duplex" |}.

Definition runTaskCmd : Command :=
  RunTask (duplex "run-task") "audio" "tts" "SpeechSynthesizer" "cosyvoice-v3-plus"
    {| text_type := "PlainText";
       p_voice := JS.replace "zh-CN-" EmptyString (s_voice s);
       p_format := if String.eqb (s_format s) "mp3" then "mp3" else "wav";
       sample_rate := Number.of_int 22050;
       p_volume := s_cosyVolume s;
       rate := s_cosySpeed s;
       p_pitch := s_cosyPitch s |}.

Definition continueTaskCmd : Command :=
  ContinueTask (duplex "continue-task") (s_text s).

Definition finishTaskCmd : Command :=
  FinishTask (duplex "finish-task").

(** [ws.on('open', ...)], source lines 63-90. *)
Definition on_open : M unit :=
  emit (logger info (SendingRunTask runTaskCmd)) ;;
  emit (ws_send runTaskCmd).

(** [msg.header.f]. *)
Definition msg_header (msg : JS.value) (f : JS.field) : M JS.value :=
  h <- lift (JS.member msg JS.header) ;;
  lift (JS.member h f).

(** [ws.on('message', ...)], source lines 92-181. *)
Definition on_message (data : Buffer) (isBinary : bool) : M unit :=
  if isBinary then
    let buffer := Buffer_from data in
    match s_fileStream s with
    | Some _ => emit (fileStream_write buffer)
    | None =>
        if s_stream s then emit (outputStream_write buffer)
        else audioChunks_push buffer
    end
  else
    try_catch
      (msg <- JSON_parse_or_throw (toString data) ;;
       ev <- msg_header msg JS.event ;;
       ev <- lift (JS.interpolate ev) ;;
       tid <- msg_header msg JS.task_id ;;
       tid <- lift (JS.interpolate tid) ;;
       emit (logger info (ReceivedEvent ev tid)) ;;
       ev1 <- msg_header msg JS.event ;;
       if JS.strict_eq_string ev1 "task-started" then
         emit (logger info (SendingContinueTask continueTaskCmd)) ;;
         emit (ws_send continueTaskCmd) ;;
         emit (logger info (SendingFinishTask finishTaskCmd)) ;;
         emit (ws_send finishTaskCmd)
       else
         ev2 <- msg_header msg JS.event ;;
         if JS.strict_eq_string ev2 "result-generated" then
           emit (logger info ResultGenerated)
         else
           ev3 <- msg_header msg JS.event ;;
           if JS.strict_eq_string ev3 "task-finished" then
             emit (logger info TaskFinished) ;;
             emit ws_close ;;
             match s_fileStream s with
             | Some _ =>
                 emit fileStream_end ;;
                 emit (resolve (ResolvedBuffer (Buffer_alloc 0)))
             | None =>
                 if s_stream s then emit outputStream_end
                 else
                   chunks <- audioChunks ;;
                   emit (resolve (ResolvedBuffer (Buffer_concat chunks)))
             end
           else
             ev4 <- msg_header msg JS.event ;;
             if JS.strict_eq_string ev4 "task-failed" then
               emit ws_close ;;
               m <- msg_header msg JS.error_message ;;
               let errorMsg := JS.or m (JS.str "CosyVoice task failed") in
               code <- msg_header msg JS.error_code ;;
               code <- lift (JS.interpolate code) ;;
               shown <- lift (JS.interpolate errorMsg) ;;
               emit (logger error (TaskFailed code shown)) ;;
               let err := JS.new_Error errorMsg in
               match s_fileStream s with
               | Some _ =>
                   emit (fileStream_destroy err) ;;
                   emit (reject err)
               | None =>
                   if s_stream s then emit (outputStream_emit_error err)
                   else emit (reject err)
               end
             else ret tt)
      (fun e => emit (logger error (ErrorParsing e))).

(** [ws.on('error', ...)], source lines 183-193. *)
Definition on_error (err : JS.Error) : M unit :=
  emit (logger error (WebSocketError err)) ;;
  match s_fileStream s with
  | Some _ =>
      emit (fileStream_destroy err) ;;
      emit (reject err)
  | None =>
      if s_stream s then emit (outputStream_emit_error err)
      else emit (reject err)
  end.

Definition dispatch (ev : Event) : M unit :=
  match ev with
  | ws_open => on_open
  | ws_message data isBinary => on_message data isBinary
  | ws_error err => on_error err
  end.

(** The callbacks run one after the other, each to completion. *)
Fixpoint deliver (evs : list Event) : M unit :=
  match evs with
  | [] => ret tt
  | ev :: rest => dispatch ev ;; deliver rest
  end.

(** The headers of the connection request, source lines 55-58. *)
Definition headers : list (string * string) :=
  [("Authorization", ("Bearer " ++ apiKey this)%string);
   ("X-DashScope-DataInspection", "enable")].

(** The body of the Promise executor that is not a callback: the
    connection is started, and in stream mode without a file the promise
    is resolved at once (source lines 54-59 and 195-197). *)
Definition executor : M unit :=
  emit (new_WebSocket (url this) headers) ;;
  if s_stream s && negb (match s_fileStream s with Some _ => true | None => false end)
  then emit (resolve ResolvedStream)
  else ret tt.

End Synthesize.

(** The part of [synthesize] that runs before the Promise is built
    (source lines 21-51): the closure, and the file opened in file mode.
    [uuid] is what [randomUUID()] returns. *)
Definition closure (text : string) (options : TtsOptions) (uuid : string) : Session :=
  let voice := default "longwan" (voice options) in
  let format := default "mp3" (format options) in
  let speed := default (Number.of_int 1) (speed options) in
  let volume := default (Number.of_int 1) (volume options) in
  let pitch := default (Number.of_int 1) (pitch options) in
  let stream := default false (stream options) in
  {| s_text := text;
     s_voice := voice;
     s_format := format;
     s_stream := stream;
     s_cosySpeed := cosySpeed speed;
     s_cosyVolume := cosyVolume volume;
     s_cosyPitch := cosyPitch;
     s_fileStream :=
       match outputType options with
       | Some t =>
           if String.eqb t "file" && truthy_string (output options)
           then output options else None
       | None => None
       end;
     s_taskId := JS.remove_hyphens uuid |}.

Definition open_file (s : Session) : M unit :=
  match s_fileStream s with
  | Some path => emit (createWriteStream path)
  | None => ret tt
  end.

(** One call of [synthesize] followed by the callbacks [evs]. *)
Definition synthesize (JSON_parse : string -> option JS.value)
    (this : CosyVoiceEngine) (text : string) (options : TtsOptions)
    (uuid : string) (evs : list Event) : M unit :=
  let s := closure text options uuid in
  (open_file s ;;
   executor this s ;;
   deliver JSON_parse s evs)%handler.

(** The actions of a run, and the final [audioChunks]. *)
Definition trace {A : Type} (m : M A) : list Action := snd (m []).
Definition final_chunks {A : Type} (m : M A) : list Buffer := snd (fst (m [])).

(** * Observing a run *)

(** The state of the Promise returned by [synthesize]: the first call of
    [resolve] or [reject] settles it, later calls do nothing. *)
Inductive Promise : Type :=
| Pending
| Fulfilled (r : Resolution)
| Rejected (err : JS.Error).

Definition settle (p : Promise) (a : Action) : Promise :=
  match p, a with
  | Pending, resolve r => Fulfilled r
  | Pending, reject err => Rejected err
  | _, _ => p
  end.

Definition promise_state (tr : list Action) : Promise :=
  fold_left settle tr Pending.

(** The five ways a session hands its result over: the promise resolved
    with a buffer (the concatenation, or the empty one of file mode), the
    promise rejected, the stream ended, an error emitted on the stream. *)
Definition is_finalization (a : Action) : bool :=
  match a with
  | resolve (ResolvedBuffer _) => true
  | reject _ => true
  | outputStream_end => true
  | outputStream_emit_error _ => true
  | _ => false
  end.

Definition finalizations (tr : list Action) : list Action :=
  filter is_finalization tr.

Definition is_log (a : Action) : bool :=
  match a with
  | logger _ _ => true
  | _ => false
  end.

(** A trace without its log lines. *)
Definition effects (tr : list Action) : list Action :=
  filter (fun a => negb (is_log a)) tr.

Definition is_file_action (a : Action) : bool :=
  match a with
  | createWriteStream _ | fileStream_write _ | fileStream_end
  | fileStream_destroy _ => true
  | _ => false
  end.

Fixpoint file_written (tr : list Action) : list Buffer :=
  match tr with
  | [] => []
  | fileStream_write b :: rest => b :: file_written rest
  | _ :: rest => file_written rest
  end.

Fixpoint stream_written (tr : list Action) : list Buffer :=
  match tr with
  | [] => []
  | outputStream_write b :: rest => b :: stream_written rest
  | _ :: rest => stream_written rest
  end.

(** What the active sink has received: the file in file mode, else the
    stream in stream mode, else [audioChunks]. *)
Definition sink_contents (s : Session) (chunks : list Buffer) (tr : list Action)
  : list Buffer :=
  match s_fileStream s with
  | Some _ => file_written tr
  | None => if s_stream s then stream_written tr else chunks
  end.

(** The payloads of the binary frames of a history, in arrival order. *)
Fixpoint binary_payloads (evs : list Event) : list Buffer :=
  match evs with
  | [] => []
  | ws_message data true :: rest => Buffer_from data :: binary_payloads rest
  | _ :: rest => binary_payloads rest
  end.

(** * Reading a text frame

    How the handler reads a text frame, as a value: the frame is
    unreadable when an exception reaches the [catch] before the event
    name is looked at; otherwise it carries an event name and a task id,
    and is one of the four known events or something else. *)
Inductive Kind : Type :=
| Started
| Generated
| Finished
| Failed (errorMsg code : JS.value)
| FailedUnreported
| Other.

Inductive Control : Type :=
| Unreadable (e : JS.exn)
| Readable (ev tid : JS.value) (k : Kind).

Definition fallback : JS.value := JS.str "CosyVoice task failed".

Definition kind_of (h ev : JS.value) : Kind :=
  if JS.strict_eq_string ev "task-started" then Started
  else if JS.strict_eq_string ev "result-generated" then Generated
  else if JS.strict_eq_string ev "task-finished" then Finished
  else if JS.strict_eq_string ev "task-failed" then
    match JS.member h JS.error_message, JS.member h JS.error_code with
    | JS.Normal m, JS.Normal code =>
        if JS.ToString_throws code || JS.ToString_throws (JS.or m fallback)
        then FailedUnreported
        else Failed (JS.or m fallback) code
    | _, _ => FailedUnreported
    end
  else Other.

Definition read (msg : JS.value) : Control :=
  match JS.member msg JS.header with
  | JS.Throw e => Unreadable e
  | JS.Normal h =>
      match JS.member h JS.event with
      | JS.Throw e => Unreadable e
      | JS.Normal ev =>
          if JS.ToString_throws ev then Unreadable JS.TypeError
          else
            match JS.member h JS.task_id with
            | JS.Throw e => Unreadable e
            | JS.Normal tid =>
                if JS.ToString_throws tid then Unreadable JS.TypeError
                else Readable ev tid (kind_of h ev)
            end
      end
  end.

Definition classify (JSON_parse : string -> option JS.value) (data : Buffer)
  : Control :=
  match JSON_parse (toString data) with
  | None => Unreadable JS.SyntaxError
  | Some msg => read msg
  end.


(** The actions of the two terminal branches. *)
Definition finish (s : Session) (chunks : list Buffer) : list Action :=
  match s_fileStream s with
  | Some _ => [fileStream_end; resolve (ResolvedBuffer (Buffer_alloc 0))]
  | None =>
      if s_stream s then [outputStream_end]
      else [resolve (ResolvedBuffer (Buffer_concat chunks))]
  end.

Definition fail (s : Session) (err : JS.Error) : list Action :=
  match s_fileStream s with
  | Some _ => [fileStream_destroy err; reject err]
  | None =>
      if s_stream s then [outputStream_emit_error err]
      else [reject err]
  end.

(** What the handler emits on a text frame, by the way the frame reads;
    [on_message_text] below proves that [on_message] does exactly this. *)
Definition handled (s : Session) (chunks : list Buffer) (c : Control)
  : list Action :=
  match c with
  | Unreadable e => [logger error (ErrorParsing e)]
  | Readable ev tid k =>
      logger info (ReceivedEvent ev tid) ::
      match k with
      | Started =>
          [logger info (SendingContinueTask (continueTaskCmd s));
           ws_send (continueTaskCmd s);
           logger info (SendingFinishTask (finishTaskCmd s));
           ws_send (finishTaskCmd s)]
      | Generated => [logger info ResultGenerated]
      | Finished => logger info TaskFinished :: ws_close :: finish s chunks
      | Failed errorMsg code =>
          ws_close :: logger error (TaskFailed code errorMsg) ::
          fail s (JS.new_Error errorMsg)
      | FailedUnreported =>
          [ws_close; logger error (ErrorParsing JS.TypeError)]
      | Other => []
      end
  end.

(** The events on which a terminal branch runs to its end. *)
Definition terminal (JSON_parse : string -> option JS.value) (ev : Event) : bool :=
  match ev with
  | ws_open => false
  | ws_error _ => true
  | ws_message _ true => false
  | ws_message data false =>
      match classify JSON_parse data with
      | Readable _ _ Finished | Readable _ _ (Failed _ _) => true
      | _ => false
      end
  end.

(** ** Concrete data for the scenarios *)

Definition engine : CosyVoiceEngine :=
  {| name := "cosyvoice";
     apiKey := "sk-test";
     url := "wss://dashscope.aliyuncs.com/api-ws/v1/inference" |}.

Definition no_options : TtsOptions :=
  {| voice := None; format := None; speed := None; volume := None;
     pitch := None; stream := None; outputType := None; output := None |}.

Definition stream_options : TtsOptions :=
  {| voice := None; format := None; speed := None; volume := None;
     pitch := None; stream := Some true; outputType := None; output := None |}.

Definition file_without_output : TtsOptions :=
  {| voice := None; format := None; speed := None; volume := None;
     pitch := None; stream := None; outputType := Some "file"; output := None |}.

Definition uuid0 : string := "2bf83b9a-baeb-4fda-8d9a-0123456789ab".

Definition text_frame (json : string) : Event :=
  ws_message (list_byte_of_string (JSON.text json)) false.

Definition binary_frame (bytes : string) : Event :=
  ws_message (list_byte_of_string bytes) true.

Definition task_started : string :=
  "{'header':{'task_id':'2bf83b9abaeb4fda8d9a0123456789ab','event':'task-started','attributes':{}},'payload':{}}".

Definition task_finished : string :=
  "{'header':{'task_id':'2bf83b9abaeb4fda8d9a0123456789ab','event':'task-finished','attributes':{}},'payload':{'usage':{'characters':5}}}".

Definition task_failed (message : string) : string :=
  ("{'header':{'task_id':'2bf83b9abaeb4fda8d9a0123456789ab','event':'task-failed','error_code':'Throttling','error_message':'"
   ++ message ++ "','attributes':{}},'payload':{}}")%string.

Definition task_failed_bare : string :=
  "{'header':{'task_id':'2bf83b9abaeb4fda8d9a0123456789ab','event':'task-failed'},'payload':{}}".

(** * A run as a fold

    Each callback leaves [audioChunks] in a state and emits a list of
    actions that depend only on the event, the closure and [audioChunks]
    before it.  The functions of this section describe that; [dispatch_eq],
    [deliver_eq] and [synthesize_eq] below prove that the handlers and
    [synthesize] compute them, and that no callback throws. *)
Definition chunks_step (s : Session) (ev : Event) (chunks : list Buffer)
  : list Buffer :=
  match ev, s_fileStream s, s_stream s with
  | ws_message data true, None, false => (chunks ++ [Buffer_from data])%list
  | _, _, _ => chunks
  end.

Definition actions_step (JSON_parse : string -> option JS.value) (s : Session)
    (ev : Event) (chunks : list Buffer) : list Action :=
  match ev with
  | ws_open => [logger info (SendingRunTask (runTaskCmd s)); ws_send (runTaskCmd s)]
  | ws_message data true =>
      match s_fileStream s with
      | Some _ => [fileStream_write (Buffer_from data)]
      | None => if s_stream s then [outputStream_write (Buffer_from data)] else []
      end
  | ws_message data false => handled s chunks (classify JSON_parse data)
  | ws_error err => logger error (WebSocketError err) :: fail s err
  end.

Fixpoint chunks_after (s : Session) (evs : list Event) (chunks : list Buffer)
  : list Buffer :=
  match evs with
  | [] => chunks
  | ev :: rest => chunks_after s rest (chunks_step s ev chunks)
  end.

Fixpoint actions_of (JSON_parse : string -> option JS.value) (s : Session)
    (evs : list Event) (chunks : list Buffer) : list Action :=
  match evs with
  | [] => []
  | ev :: rest =>
      (actions_step JSON_parse s ev chunks ++
       actions_of JSON_parse s rest (chunks_step s ev chunks))%list
  end.

(** What [synthesize] emits before any callback runs. *)
Definition setup (this : CosyVoiceEngine) (s : Session) : list Action :=
  ((match s_fileStream s with
    | Some path => [createWriteStream path]
    | None => []
    end) ++
   new_WebSocket (url this) (headers this) ::
   (match s_fileStream s with
    | Some _ => []
    | None => if s_stream s then [resolve ResolvedStream] else []
    end))%list.

(** The sink a session writes to, fixed when the closure is built. *)
Inductive Sink : Type :=
| FileSink (path : string)
| StreamSink
| BufferSink.

Definition sink_of (s : Session) : Sink :=
  match s_fileStream s with
  | Some path => FileSink path
  | None => if s_stream s then StreamSink else BufferSink
  end.

(** The frame reads as the event [name]. *)
Definition event_is (JSON_parse : string -> option JS.value) (data : Buffer)
    (name : string) : bool :=
  match classify JSON_parse data with
  | Readable ev _ _ => JS.strict_eq_string ev name
  | Unreadable _ => false
  end.

(** [msg.header.f] of a frame, when the frame parses and has a header. *)
Definition header_field (JSON_parse : string -> option JS.value) (data : Buffer)
    (f : JS.field) : option JS.value :=
  match JSON_parse (toString data) with
  | Some msg =>
      match JS.member msg JS.header with
      | JS.Normal h =>
          match JS.member h f with
          | JS.Normal v => Some v
          | JS.Throw _ => None
          end
      | JS.Throw _ => None
      end
  | None => None
  end.

Definition finalization_count (tr : list Action) : nat :=
  List.length (finalizations tr).

Definition parameters_of (cmd : Command) : option Parameters :=
  match cmd with
  | RunTask _ _ _ _ _ parameters => Some parameters
  | _ => None
  end.

Definition with_pitch (options : TtsOptions) (p : option number) : TtsOptions :=
  {| voice := voice options; format := format options; speed := speed options;
     volume := volume options; pitch := p; stream := stream options;
     outputType := outputType options; output := output options |}.

Definition without_file (options : TtsOptions) : TtsOptions :=
  {| voice := voice options; format := format options; speed := speed options;
     volume := volume options; pitch := pitch options; stream := stream options;
     outputType := None; output := None |}.

Definition binary (b : Buffer) : Event := ws_message b true.

(** The clamp of the source, [Math.max(0, Math.min(100, x))]. *)
Definition clamp_percent (x : number) : number :=
  Math.max [Number.of_int 0; Math.min [Number.of_int 100; x]].

(** [r || d] on Numbers. *)
Definition or_default (r d : number) : number :=
  if Number.truthy r then r else d.

(** The volume sent, as a function of the rounded integer. *)
Definition percent_or_50 (n : Z) : number :=
  if n <=? 0 then Number.of_int 50
  else if 100 <=? n then Number.of_int 100
  else Number.of_int n.

Definition AA : Buffer := list_byte_of_string "AA".
Definition BB : Buffer := list_byte_of_string "BB".

Definition started_frame : Buffer := list_byte_of_string (JSON.text task_started).
Definition finished_frame : Buffer := list_byte_of_string (JSON.text task_finished).
Definition quota_frame : Buffer :=
  list_byte_of_string (JSON.text (task_failed "quota exceeded")).
Definition empty_message_frame : Buffer :=
  list_byte_of_string (JSON.text (task_failed EmptyString)).

Definition settles (a : Action) : bool :=
  match a with
  | resolve _ | reject _ => true
  | _ => false
  end.


(** * The rest of the engine *)

(** [getSupportedLanguages], source lines 201-203. *)
Definition getSupportedLanguages : list string :=
  ["zh-CN"; "en-US"; "ja-JP"; "ko-KR"; "yue-CN"].

(** [getVoiceOptions], source lines 205-219. *)
Definition getVoiceOptions : list string :=
  ["zh-CN-longwan"; "zh-CN-longcheng"; "zh-CN-longhua"; "zh-CN-longxia";
   "zh-CN-longye"; "zh-CN-longjue"; "zh-CN-longshuo"; "zh-CN-longmiao";
   "zh-CN-longyue"; "zh-CN-longanyang"; "zh-CN-longanhuan"].

(** The literal [2.0]. *)
Definition two : number := Number.of_int 2.

(** Whether [pattern] occurs somewhere in [s]. *)
Fixpoint occurs (pattern s : string) : bool :=
  String.prefix pattern s ||
  match s with
  | EmptyString => false
  | String _ s' => occurs pattern s'
  end.

(** The characters of a string. *)
Fixpoint chars (s : string) : list ascii :=
  match s with
  | EmptyString => []
  | String c s' => c :: chars s'
  end.

(** ** Observations on the commands of a run *)

Definition header_of (cmd : Command) : Header :=
  match cmd with
  | RunTask h _ _ _ _ _ => h
  | ContinueTask h _ => h
  | FinishTask h => h
  end.

(** The commands passed to [ws.send], in order. *)
Fixpoint sent_commands (tr : list Action) : list Command :=
  match tr with
  | [] => []
  | ws_send cmd :: rest => cmd :: sent_commands rest
  | _ :: rest => sent_commands rest
  end.

(** The commands written into the log, in order. *)
Fixpoint logged_commands (tr : list Action) : list Command :=
  match tr with
  | [] => []
  | logger _ (SendingRunTask cmd) :: rest => cmd :: logged_commands rest
  | logger _ (SendingContinueTask cmd) :: rest => cmd :: logged_commands rest
  | logger _ (SendingFinishTask cmd) :: rest => cmd :: logged_commands rest
  | _ :: rest => logged_commands rest
  end.

(** The connections opened and the files created by a run. *)
Fixpoint connections (tr : list Action) : list (string * list (string * string)) :=
  match tr with
  | [] => []
  | new_WebSocket u hs :: rest => (u, hs) :: connections rest
  | _ :: rest => connections rest
  end.

Fixpoint files_created (tr : list Action) : list string :=
  match tr with
  | [] => []
  | createWriteStream path :: rest => path :: files_created rest
  | _ :: rest => files_created rest
  end.

(** A text frame the handler reads and does nothing with: a
    [result-generated] event, or an event that is none of the four. *)
Definition inert (JSON_parse : string -> option JS.value) (data : Buffer) : bool :=
  match classify JSON_parse data with
  | Readable _ _ Generated | Readable _ _ Other => true
  | _ => false
  end.

Definition is_pending (p : Promise) : bool :=
  match p with
  | Pending => true
  | _ => false
  end.

Definition with_stream (options : TtsOptions) (b : option bool) : TtsOptions :=
  {| voice := voice options; format := format options; speed := speed options;
     volume := volume options; pitch := pitch options; stream := b;
     outputType := outputType options; output := output options |}.

Definition with_voice (options : TtsOptions) (v : option string) : TtsOptions :=
  {| voice := v; format := format options; speed := speed options;
     volume := volume options; pitch := pitch options; stream := stream options;
     outputType := outputType options; output := output options |}.

Definition file_options : TtsOptions :=
  {| voice := None; format := None; speed := None; volume := None;
     pitch := None; stream := None; outputType := Some "file";
     output := Some "/tmp/x.mp3" |}.

Definition unconvertible_frame : Buffer :=
  list_byte_of_string
    (JSON.text "{'header':{'event':'task-failed','error_code':{'toString':'code'}}}").

Definition generated_frame : Buffer :=
  list_byte_of_string
    (JSON.text "{'header':{'task_id':'2bf83b9abaeb4fda8d9a0123456789ab','event':'result-generated'},'payload':{}}").

(** ** Engine registration

    Modelled from the spec: [ttsPluginManager], the three other engine
    classes and the configuration constants are imported from files that
    are not among the sources.  A configuration flag is its truthiness,
    the key is a string or [undefined], and a registration of another
    engine is recorded as the constructor call it makes. *)
Record Config : Type := {
  REGISTER_OPENAI_TTS : bool;
  OPENAI_API_KEY : option string;
  REGISTER_KOKORO : bool;
  TTS_KOKORO_URL : string;
  REGISTER_COSYVOICE : bool;
  COSYVOICE_API_KEY : option string
}.

Inductive Registration : Type :=
| EdgeTts
| OpenAITts (key : option string)
| KokoroTts (url : string)
| CosyVoice (constructed : JS.Error + CosyVoiceEngine).

(** [registerEngines], source lines 234-245: the calls of
    [ttsPluginManager.registerEngine], in order.  The CosyVoice branch is
    guarded by [REGISTER_COSYVOICE && COSYVOICE_API_KEY]. *)
Definition registerEngines (c : Config) : list Registration :=
  [EdgeTts] ++
  (if REGISTER_OPENAI_TTS c then [OpenAITts (OPENAI_API_KEY c)] else []) ++
  (if REGISTER_KOKORO c then [KokoroTts (TTS_KOKORO_URL c)] else []) ++
  (match COSYVOICE_API_KEY c with
   | Some key =>
       if REGISTER_COSYVOICE c && negb (String.eqb key EmptyString)
       then [CosyVoice (new_CosyVoiceEngine key)]
       else []
   | None => []
   end).

(** What the session sends in answer to one event. *)
Definition replies (JSON_parse : string -> option JS.value) (s : Session)
    (ev : Event) : list Command :=
  match ev with
  | ws_open => [runTaskCmd s]
  | ws_message data false =>
      if event_is JSON_parse data "task-started"
      then [continueTaskCmd s; finishTaskCmd s]
      else []
  | _ => []
  end.

Definition is_stream_sink (s : Session) : bool :=
  match sink_of s with
  | StreamSink => true
  | _ => false
  end.

(** What a terminal branch does to the sink, by sink. *)
Definition finish_by_sink (s : Session) (payloads : list Buffer) : list Action :=
  match sink_of s with
  | FileSink _ => [fileStream_end; resolve (ResolvedBuffer [])]
  | StreamSink => [outputStream_end]
  | BufferSink => [resolve (ResolvedBuffer (Buffer_concat payloads))]
  end.

Definition fail_by_sink (s : Session) (err : JS.Error) : list Action :=
  match sink_of s with
  | FileSink _ => [fileStream_destroy err; reject err]
  | StreamSink => [outputStream_emit_error err]
  | BufferSink => [reject err]
  end.

(** The closure with another [stream] flag. *)
Definition set_stream (s : Session) (b : bool) : Session :=
  {| s_text := s_text s; s_voice := s_voice s; s_format := s_format s;
     s_stream := b; s_cosySpeed := s_cosySpeed s; s_cosyVolume := s_cosyVolume s;
     s_cosyPitch := s_cosyPitch s; s_fileStream := s_fileStream s;
     s_taskId := s_taskId s |}.

Definition is_cosyvoice (r : Registration) : bool :=
  match r with
  | CosyVoice _ => true
  | _ => false
  end.

(** The exception with which a text frame ends in the handler's [catch],
    if it does: [JSON.parse] throws, the header, the event or the task id
    cannot be read and written into the first log line (source lines
    106-110), or the log line of the [task-failed] branch throws (source
    lines 164-166). *)
Definition caught (JSON_parse : string -> option JS.value) (data : Buffer)
  : option JS.exn :=
  match classify JSON_parse data with
  | Unreadable e => Some e
  | Readable _ _ FailedUnreported => Some JS.TypeError
  | Readable _ _ _ => None
  end.

(** ** What goes over the wire

    [JSON.stringify] of a Number (SerializeJSONProperty), as the JSON
    value its text denotes: a finite number is written with digits that
    read back as the same number, [-0] is written [0], NaN and the
    infinities are written [null]. *)
Definition stringify_number (x : number) : JS.value :=
  match x with
  | S754_nan | S754_infinity _ => JS.null
  | S754_zero _ => JS.num (S754_zero false)
  | S754_finite _ _ _ => JS.num x
  end.

Definition stringify_header (h : Header) : JS.value :=
  JS.object
    [("action", JS.str (action h));
     ("task_id", JS.str (h_task_id h));
     ("streaming", JS.str (streaming h))].

(** [JSON.stringify(cmd)] of source lines 89, 129 and 145, as the JSON
    value the text denotes. *)
Definition JSON_stringify (cmd : Command) : JS.value :=
  match cmd with
  | RunTask h task_group task function model p =>
      JS.object
        [("header", stringify_header h);
         ("payload",
          JS.object
            [("task_group", JS.str task_group);
             ("task", JS.str task);
             ("function", JS.str function);
             ("model", JS.str model);
             ("parameters",
              JS.object
                [("text_type", JS.str (text_type p));
                 ("voice", JS.str (p_voice p));
                 ("format", JS.str (p_format p));
                 ("sample_rate", stringify_number (sample_rate p));
                 ("volume", stringify_number (p_volume p));
                 ("rate", stringify_number (rate p));
                 ("pitch", stringify_number (p_pitch p))]);
             ("input", JS.object [])])]
  | ContinueTask h text =>
      JS.object
        [("header", stringify_header h);
         ("payload", JS.object [("input", JS.object [("text", JS.str text)])])]
  | FinishTask h =>
      JS.object
        [("header", stringify_header h);
         ("payload", JS.object [("input", JS.object [])])]
  end.

(** The frames given to [ws.send], in order. *)
Definition sent_frames (tr : list Action) : list JS.value :=
  map JSON_stringify (sent_commands tr).

(** The value found in a frame along a path of property names. *)
Fixpoint at_path (v : JS.value) (path : list string) : option JS.value :=
  match path with
  | [] => Some v
  | name :: rest =>
      match v with
      | JS.object properties =>
          match JS.own_property properties name with
          | Some x => at_path x rest
          | None => None
          end
      | _ => None
      end
  end.

(** * The volume mapping *)

Lemma round_half_up_cmp z e c :
  match Number.compare_scaled (z, e) (c, 0) with
  | Lt => Number.round_half_up z e <= c
  | Eq => Number.round_half_up z e = c
  | Gt => c <= Number.round_half_up z e
  end.
Proof.
  unfold Number.compare_scaled, Number.round_half_up; cbn [fst snd].
  destruct (0 <=? e) eqn:He.
  - apply Z.leb_le in He. rewrite Z.min_r by lia.
    rewrite !Z.sub_0_r, Z.pow_0_r, Z.mul_1_r.
    destruct (Z.compare_spec (z * 2 ^ e) c); lia.
  - apply Z.leb_gt in He. rewrite Z.min_l by lia.
    rewrite Z.sub_diag, Z.pow_0_r, Z.mul_1_r, Z.sub_0_l.
    assert (HP : 0 < 2 ^ (- e)) by (apply Z.pow_pos_nonneg; lia).
    assert (HQ : 2 ^ (1 - e) = 2 * 2 ^ (- e)).
    { replace (1 - e) with (Z.succ (- e)) by lia. apply Z.pow_succ_r. lia. }
    rewrite HQ.
    destruct (Z.compare_spec z (c * 2 ^ (- e))).
    + symmetry. apply Z.div_unique with (r := 2 ^ (- e)); nia.
    + assert ((2 * z + 2 ^ (- e)) / (2 * 2 ^ (- e)) < c + 1); [|lia].
      apply Z.div_lt_upper_bound; nia.
    + apply Z.div_le_lower_bound; nia.
Qed.

Lemma compare_scaled_int a b : Number.compare_scaled (a, 0) (b, 0) = (a ?= b).
Proof.
  unfold Number.compare_scaled; cbn [fst snd].
  rewrite Z.min_id, Z.sub_diag, Z.pow_0_r, !Z.mul_1_r. reflexivity.
Qed.

Lemma compare_of_int n negzero c :
  Number.compare (Number.of_Z negzero n) (Number.of_int c) = Some (n ?= c).
Proof.
  destruct n, c;
    cbn [Number.of_int Number.of_Z Number.compare Number.scaled cond_Zopp];
    rewrite compare_scaled_int; reflexivity.
Qed.

Lemma Math_min_100 x :
  Math.min [Number.of_int 100; x] =
  if Number.is_nan x then Number.NaN
  else if Number.lt x (Number.of_int 100) then x else Number.of_int 100.
Proof.
  unfold Math.min; cbn [Math.min_loop].
  change (Number.is_nan (Number.of_int 100)) with false.
  change (Number.is_neg_zero (Number.of_int 100)) with false.
  change (Number.lt (Number.of_int 100) Number.pos_infinity) with true.
  change (Number.is_pos_zero (Number.of_int 100)) with false.
  cbn [andb]. rewrite andb_false_r. reflexivity.
Qed.

Lemma Math_max_0 x :
  Math.max [Number.of_int 0; x] =
  if Number.is_nan x then Number.NaN
  else if Number.gt x (Number.of_int 0) then x else Number.of_int 0.
Proof.
  unfold Math.max; cbn [Math.max_loop].
  change (Number.is_nan (Number.of_int 0)) with false.
  change (Number.is_pos_zero (Number.of_int 0) && Number.is_neg_zero Number.neg_infinity)
    with false.
  change (Number.gt (Number.of_int 0) Number.neg_infinity) with true.
  change (Number.is_neg_zero (Number.of_int 0)) with false.
  cbn iota. rewrite andb_false_r. reflexivity.
Qed.

Lemma clamp_percent_eq x :
  clamp_percent x =
  if Number.is_nan x then Number.NaN
  else if Number.lt x (Number.of_int 100)
       then (if Number.gt x (Number.of_int 0) then x else Number.of_int 0)
       else Number.of_int 100.
Proof.
  unfold clamp_percent. rewrite Math_min_100, Math_max_0.
  destruct (Number.is_nan x) eqn:Hn; [reflexivity|].
  destruct (Number.lt x (Number.of_int 100)); [rewrite Hn|]; reflexivity.
Qed.

Lemma is_nan_of_Z negzero n : Number.is_nan (Number.of_Z negzero n) = false.
Proof. destruct n; reflexivity. Qed.

Lemma lt_of_Z negzero n c :
  Number.lt (Number.of_Z negzero n) (Number.of_int c) = (n <? c).
Proof.
  unfold Number.lt, Z.ltb. rewrite compare_of_int. destruct (n ?= c); reflexivity.
Qed.

Lemma gt_of_Z negzero n c :
  Number.gt (Number.of_Z negzero n) (Number.of_int c) = (c <? n).
Proof.
  unfold Number.gt, Z.ltb. rewrite compare_of_int, (Z.compare_antisym n c).
  destruct (n ?= c); reflexivity.
Qed.

(** Clamping an integer, then the default. *)
Lemma or_default_clamp_of_Z negzero n :
  or_default (clamp_percent (Number.of_Z negzero n)) (Number.of_int 50) =
  percent_or_50 n.
Proof.
  rewrite clamp_percent_eq, is_nan_of_Z, lt_of_Z, gt_of_Z.
  unfold or_default, percent_or_50.
  destruct (Z.ltb_spec n 100), (Z.ltb_spec 0 n), (Z.leb_spec n 0), (Z.leb_spec 100 n);
    try lia; try reflexivity.
  destruct n; try lia; reflexivity.
Qed.

(** Rounding commutes with the clamp to [0, 100], up to the default. *)
Lemma round_clamp_commute x :
  or_default (Math.round (clamp_percent x)) (Number.of_int 50) =
  or_default (clamp_percent (Math.round x)) (Number.of_int 50).
Proof.
  destruct x as [s | s | | s m e]; try (destruct s; reflexivity); try reflexivity.
  cbn [Math.round]. rewrite or_default_clamp_of_Z.
  set (z := cond_Zopp s (Z.pos m)).
  rewrite clamp_percent_eq. cbn [Number.is_nan].
  unfold Number.lt, Number.gt.
  cbn [Number.compare Number.scaled Number.of_int Number.of_Z]. fold z.
  change (cond_Zopp false 100) with 100.
  pose proof (round_half_up_cmp z e 100) as H100.
  pose proof (round_half_up_cmp z e 0) as H0.
  assert (Hz : z <> 0) by (subst z; destruct s; cbn; lia).
  unfold percent_or_50.
  destruct (Number.compare_scaled (z, e) (100, 0)) eqn:C100.
  - change (Math.round (Number.of_int 100)) with (Number.of_int 100).
    rewrite H100. reflexivity.
  - destruct (Number.compare_scaled (z, e) (0, 0)) eqn:C0.
    + exfalso. revert C0. unfold Number.compare_scaled; cbn [fst snd].
      intros C0. apply Z.compare_eq in C0.
      assert (0 < 2 ^ (e - Z.min e 0)) by (apply Z.pow_pos_nonneg; lia). nia.
    + change (Math.round (Number.of_int 0)) with (Number.of_int 0).
      destruct (Z.leb_spec (Number.round_half_up z e) 0); [reflexivity | lia].
    + cbn [Math.round]. fold z.
      destruct (Z.leb_spec (Number.round_half_up z e) 0).
      * assert (E : Number.round_half_up z e = 0) by lia. rewrite E. reflexivity.
      * destruct (Z.leb_spec 100 (Number.round_half_up z e)).
        -- assert (E : Number.round_half_up z e = 100) by lia. rewrite E.
           destruct s; reflexivity.
        -- destruct (Number.round_half_up z e); try lia. destruct s; reflexivity.
  - change (Math.round (Number.of_int 100)) with (Number.of_int 100).
    destruct (Z.leb_spec (Number.round_half_up z e) 0); [lia|].
    destruct (Z.leb_spec 100 (Number.round_half_up z e)); [reflexivity | lia].
Qed.

Lemma percent_or_50_range n :
  exists k, 1 <= k <= 100 /\ percent_or_50 n = Number.of_int k.
Proof.
  unfold percent_or_50.
  destruct (Z.leb_spec n 0); [exists 50; split; [lia | reflexivity]|].
  destruct (Z.leb_spec 100 n); [exists 100; split; [lia | reflexivity]|].
  exists n. split; [lia | reflexivity].
Qed.

Lemma or_default_clamp_round_range x :
  exists k, 1 <= k <= 100 /\
    or_default (clamp_percent (Math.round x)) (Number.of_int 50) = Number.of_int k.
Proof.
  destruct x as [s | s | | s m e].
  - exists 50. split; [lia | destruct s; reflexivity].
  - destruct s; [exists 50 | exists 100]; (split; [lia | reflexivity]).
  - exists 50. split; [lia | reflexivity].
  - cbn [Math.round]. rewrite or_default_clamp_of_Z. apply percent_or_50_range.
Qed.

(** C6.  The volume written into the [run-task] command is
    [round(volume * 100)] clamped to [[0, 100]], with 50 in place of a
    result of 0 (or NaN); it is always an integer between 1 and 100.  The
    product is the IEEE one, and [volume] defaults to 1. *)
Theorem run_task_volume text options uuid :
  let v := default (Number.of_int 1) (volume options) in
  let r := clamp_percent (Math.round (Number.mul v (Number.of_int 100))) in
  option_map p_volume (parameters_of (runTaskCmd (closure text options uuid))) =
    Some (if Number.truthy r then r else Number.of_int 50) /\
  exists k, 1 <= k <= 100 /\
    (if Number.truthy r then r else Number.of_int 50) = Number.of_int k.
Proof.
  intros v r. split.
  - cbn [runTaskCmd parameters_of option_map p_volume closure s_cosyVolume].
    f_equal. fold v.
    apply (round_clamp_commute (Number.mul v (Number.of_int 100))).
  - apply (or_default_clamp_round_range (Number.mul v (Number.of_int 100))).
Qed.

Example volume_one : cosyVolume (Number.of_int 1) = Number.of_int 100.
Proof. reflexivity. Qed.

Example volume_zero : cosyVolume (Number.of_int 0) = Number.of_int 50.
Proof. reflexivity. Qed.

Example volume_half : cosyVolume half = Number.of_int 50.
Proof. reflexivity. Qed.

(** [0.285 * 100] is [28.499999999999996] in binary64. *)
Example volume_0_285 :
  cosyVolume (Number.div (Number.of_int 285) (Number.of_int 1000)) = Number.of_int 28.
Proof. vm_compute. reflexivity. Qed.

Example volume_0_004 :
  cosyVolume (Number.div (Number.of_int 4) (Number.of_int 1000)) = Number.of_int 50.
Proof. vm_compute. reflexivity. Qed.

Example volume_out_of_range :
  cosyVolume (Number.of_int 7) = Number.of_int 100 /\
  cosyVolume (Number.of_int (-7)) = Number.of_int 50 /\
  cosyVolume Number.NaN = Number.of_int 50.
Proof. repeat split. Qed.

(** * The handlers, one event at a time *)

Example engine_is_constructed : new_CosyVoiceEngine "sk-test" = inr engine.
Proof. reflexivity. Qed.

Example engine_needs_a_key :
  new_CosyVoiceEngine EmptyString =
  inl (JS.new_Error (JS.str "CosyVoice requires an API key.")).
Proof. reflexivity. Qed.

Lemma member_defined (h : JS.value) (f g : JS.field) (x : JS.value) :
  JS.member h f = JS.Normal x -> exists y, JS.member h g = JS.Normal y.
Proof.
  destruct h; cbn; try discriminate; eauto.
  intros _. destruct (JS.own_property properties (JS.field_name g)); eauto.
Qed.

Section Handlers.

Variable JSON_parse : string -> option JS.value.
Variable s : Session.

Lemma on_message_binary (data : Buffer) (chunks : list Buffer) :
  on_message JSON_parse s data true chunks =
  match s_fileStream s with
  | Some _ => (JS.Normal tt, chunks, [fileStream_write (Buffer_from data)])
  | None =>
      if s_stream s
      then (JS.Normal tt, chunks, [outputStream_write (Buffer_from data)])
      else (JS.Normal tt, (chunks ++ [Buffer_from data])%list, [])
  end.
Proof.
  unfold on_message. destruct (s_fileStream s); [reflexivity|].
  destruct (s_stream s); reflexivity.
Qed.

Lemma on_message_text (data : Buffer) (chunks : list Buffer) :
  on_message JSON_parse s data false chunks =
  (JS.Normal tt, chunks, handled s chunks (classify JSON_parse data)).
Proof.
  unfold on_message, classify, try_catch, JSON_parse_or_throw.
  destruct (JSON_parse (toString data)) as [msg|]; [|reflexivity].
  unfold read, msg_header, bind, lift, ret.
  destruct (JS.member msg JS.header) as [h|e]; [|reflexivity].
  destruct (JS.member h JS.event) as [ev|e] eqn:Hev; [|reflexivity].
  unfold JS.interpolate.
  destruct (JS.ToString_throws ev); [reflexivity|].
  destruct (member_defined h _ JS.task_id _ Hev) as [tid Htid].
  destruct (member_defined h _ JS.error_message _ Hev) as [m Hm].
  destruct (member_defined h _ JS.error_code _ Hev) as [code Hcode].
  rewrite Htid.
  destruct (JS.ToString_throws tid); [reflexivity|].
  unfold kind_of, handled, emit, finish, fail, audioChunks.
  destruct (JS.strict_eq_string ev "task-started"); [reflexivity|].
  destruct (JS.strict_eq_string ev "result-generated"); [reflexivity|].
  destruct (JS.strict_eq_string ev "task-finished").
  { destruct (s_fileStream s); [reflexivity|].
    destruct (s_stream s); reflexivity. }
  destruct (JS.strict_eq_string ev "task-failed"); [|reflexivity].
  rewrite Hm, Hcode. fold fallback.
  destruct (JS.ToString_throws code); [reflexivity|].
  destruct (JS.ToString_throws (JS.or m fallback)); [reflexivity|].
  cbn [orb].
  destruct (s_fileStream s); [reflexivity|].
  destruct (s_stream s); reflexivity.
Qed.

Lemma on_error_eq (err : JS.Error) (chunks : list Buffer) :
  on_error s err chunks =
  (JS.Normal tt, chunks, logger error (WebSocketError err) :: fail s err).
Proof.
  unfold on_error, fail, bind, emit.
  destruct (s_fileStream s); [reflexivity|].
  destruct (s_stream s); reflexivity.
Qed.

Lemma on_open_eq (chunks : list Buffer) :
  on_open s chunks =
  (JS.Normal tt, chunks,
   [logger info (SendingRunTask (runTaskCmd s)); ws_send (runTaskCmd s)]).
Proof. reflexivity. Qed.

End Handlers.


Section Runs.

Variable JSON_parse : string -> option JS.value.
Variable s : Session.

Lemma dispatch_eq (ev : Event) (chunks : list Buffer) :
  dispatch JSON_parse s ev chunks =
  (JS.Normal tt, chunks_step s ev chunks, actions_step JSON_parse s ev chunks).
Proof.
  destruct ev as [|data [|]|err]; cbn [dispatch].
  - reflexivity.
  - rewrite on_message_binary. unfold chunks_step, actions_step.
    destruct (s_fileStream s); [reflexivity|].
    destruct (s_stream s); reflexivity.
  - rewrite on_message_text. unfold chunks_step.
    destruct (s_fileStream s), (s_stream s); reflexivity.
  - rewrite on_error_eq. unfold chunks_step.
    destruct (s_fileStream s), (s_stream s); reflexivity.
Qed.

(** The callbacks never throw: a run of any history completes. *)
Lemma deliver_eq (evs : list Event) (chunks : list Buffer) :
  deliver JSON_parse s evs chunks =
  (JS.Normal tt, chunks_after s evs chunks, actions_of JSON_parse s evs chunks).
Proof.
  revert chunks. induction evs as [|ev rest IH]; intros chunks.
  - reflexivity.
  - cbn [deliver chunks_after actions_of]. unfold bind.
    rewrite dispatch_eq, IH. reflexivity.
Qed.

Lemma chunks_after_app (evs1 evs2 : list Event) (chunks : list Buffer) :
  chunks_after s (evs1 ++ evs2) chunks =
  chunks_after s evs2 (chunks_after s evs1 chunks).
Proof.
  revert chunks. induction evs1 as [|ev rest IH]; intros chunks; cbn; auto.
Qed.

Lemma actions_of_app (evs1 evs2 : list Event) (chunks : list Buffer) :
  actions_of JSON_parse s (evs1 ++ evs2) chunks =
  (actions_of JSON_parse s evs1 chunks ++
   actions_of JSON_parse s evs2 (chunks_after s evs1 chunks))%list.
Proof.
  revert chunks. induction evs1 as [|ev rest IH]; intros chunks; cbn.
  - reflexivity.
  - rewrite IH, app_assoc. reflexivity.
Qed.

End Runs.

Lemma synthesize_eq JSON_parse this text options uuid evs :
  synthesize JSON_parse this text options uuid evs [] =
  (JS.Normal tt, chunks_after (closure text options uuid) evs [],
   (setup this (closure text options uuid) ++
    actions_of JSON_parse (closure text options uuid) evs [])%list).
Proof.
  unfold synthesize. generalize (closure text options uuid) as s. intros s.
  unfold bind, open_file, executor, setup, emit, ret.
  destruct (s_fileStream s) as [path|].
  - rewrite andb_false_r. unfold bind. cbn. rewrite deliver_eq. reflexivity.
  - rewrite andb_true_r. destruct (s_stream s); unfold bind; cbn;
      rewrite deliver_eq; reflexivity.
Qed.

Lemma trace_synthesize JSON_parse this text options uuid evs :
  trace (synthesize JSON_parse this text options uuid evs) =
  (setup this (closure text options uuid) ++
   actions_of JSON_parse (closure text options uuid) evs [])%list.
Proof. unfold trace. rewrite synthesize_eq. reflexivity. Qed.

Lemma final_chunks_synthesize JSON_parse this text options uuid evs :
  final_chunks (synthesize JSON_parse this text options uuid evs) =
  chunks_after (closure text options uuid) evs [].
Proof. unfold final_chunks. rewrite synthesize_eq. reflexivity. Qed.


(** * Traces *)

Lemma promise_state_app (tr1 tr2 : list Action) :
  promise_state (tr1 ++ tr2) = fold_left settle tr2 (promise_state tr1).
Proof. unfold promise_state. apply fold_left_app. Qed.

Lemma settle_settled (tr : list Action) (p : Promise) :
  p <> Pending -> fold_left settle tr p = p.
Proof.
  revert p. induction tr as [|a tr IH]; intros p Hp; cbn; [reflexivity|].
  destruct p; try congruence; cbn; apply IH; discriminate.
Qed.

Lemma settle_none (tr : list Action) (p : Promise) :
  forallb (fun a => negb (settles a)) tr = true -> fold_left settle tr p = p.
Proof.
  revert p. induction tr as [|a tr IH]; intros p H; cbn in *; [reflexivity|].
  apply andb_prop in H as [Ha Htr]. rewrite IH by assumption.
  destruct p, a; cbn in *; congruence.
Qed.

Lemma settle_log (p : Promise) (a : Action) : is_log a = true -> settle p a = p.
Proof. destruct p, a; cbn; congruence. Qed.

Lemma promise_state_effects (tr : list Action) :
  promise_state (effects tr) = promise_state tr.
Proof.
  unfold promise_state. generalize Pending.
  induction tr as [|a tr IH]; intros p; cbn; [reflexivity|].
  destruct (is_log a) eqn:E; cbn.
  - rewrite IH, settle_log by assumption. reflexivity.
  - apply IH.
Qed.

Lemma effects_app (tr1 tr2 : list Action) :
  effects (tr1 ++ tr2) = (effects tr1 ++ effects tr2)%list.
Proof. apply filter_app. Qed.

Lemma finalization_count_app (tr1 tr2 : list Action) :
  finalization_count (tr1 ++ tr2) =
  (finalization_count tr1 + finalization_count tr2)%nat.
Proof.
  unfold finalization_count, finalizations.
  rewrite filter_app, List.length_app. reflexivity.
Qed.

Lemma file_written_app (tr1 tr2 : list Action) :
  file_written (tr1 ++ tr2) = (file_written tr1 ++ file_written tr2)%list.
Proof.
  induction tr1 as [|a tr1 IH]; cbn; [reflexivity|].
  destruct a; cbn; rewrite ?IH; reflexivity.
Qed.

Lemma stream_written_app (tr1 tr2 : list Action) :
  stream_written (tr1 ++ tr2) = (stream_written tr1 ++ stream_written tr2)%list.
Proof.
  induction tr1 as [|a tr1 IH]; cbn; [reflexivity|].
  destruct a; cbn; rewrite ?IH; reflexivity.
Qed.

(** * Reading frames *)

Lemma strict_eq_string_true (v : JS.value) (name : string) :
  JS.strict_eq_string v name = true -> v = JS.str name.
Proof.
  destruct v; cbn; try discriminate.
  intros H. apply String.eqb_eq in H. congruence.
Qed.

Lemma classify_readable JSON_parse data ev tid k :
  classify JSON_parse data = Readable ev tid k ->
  exists msg h,
    JSON_parse (toString data) = Some msg /\
    JS.member msg JS.header = JS.Normal h /\
    JS.member h JS.event = JS.Normal ev /\
    JS.member h JS.task_id = JS.Normal tid /\
    JS.ToString_throws ev = false /\
    JS.ToString_throws tid = false /\
    k = kind_of h ev.
Proof.
  unfold classify, read.
  destruct (JSON_parse (toString data)) as [msg|] eqn:Ep; [|discriminate].
  destruct (JS.member msg JS.header) as [h|] eqn:Eh; [|discriminate].
  destruct (JS.member h JS.event) as [ev'|] eqn:Ee; [|discriminate].
  destruct (JS.ToString_throws ev') eqn:Eev; [discriminate|].
  destruct (JS.member h JS.task_id) as [tid'|] eqn:Et; [|discriminate].
  destruct (JS.ToString_throws tid') eqn:Etid; [discriminate|].
  intros H. inversion H; subst. exists msg, h. repeat split; auto.
Qed.

Lemma event_is_started JSON_parse data :
  event_is JSON_parse data "task-started" = true ->
  exists tid, classify JSON_parse data = Readable (JS.str "task-started") tid Started.
Proof.
  unfold event_is. destruct (classify JSON_parse data) as [|ev tid k] eqn:C; [discriminate|].
  intros H. apply strict_eq_string_true in H. subst ev.
  apply classify_readable in C as (msg & h & _ & _ & _ & _ & _ & _ & ->).
  exists tid. reflexivity.
Qed.

Lemma event_is_finished JSON_parse data :
  event_is JSON_parse data "task-finished" = true ->
  exists tid, classify JSON_parse data = Readable (JS.str "task-finished") tid Finished.
Proof.
  unfold event_is. destruct (classify JSON_parse data) as [|ev tid k] eqn:C; [discriminate|].
  intros H. apply strict_eq_string_true in H. subst ev.
  apply classify_readable in C as (msg & h & _ & _ & _ & _ & _ & _ & ->).
  exists tid. reflexivity.
Qed.

Lemma event_is_failed JSON_parse data m code :
  event_is JSON_parse data "task-failed" = true ->
  header_field JSON_parse data JS.error_message = Some m ->
  header_field JSON_parse data JS.error_code = Some code ->
  JS.ToString_throws m = false ->
  JS.ToString_throws code = false ->
  exists tid,
    classify JSON_parse data =
    Readable (JS.str "task-failed") tid (Failed (JS.or m fallback) code).
Proof.
  unfold event_is, header_field.
  destruct (classify JSON_parse data) as [|ev tid k] eqn:C; [discriminate|].
  intros H. apply strict_eq_string_true in H. subst ev.
  apply classify_readable in C as (msg & h & -> & -> & _ & _ & _ & _ & ->).
  destruct (JS.member h JS.error_message) as [m'|] eqn:Em; [|discriminate].
  destruct (JS.member h JS.error_code) as [code'|] eqn:Ec; [|discriminate].
  intros [= ->] [= ->] Hm Hcode.
  exists tid. unfold kind_of. cbn [JS.strict_eq_string String.eqb Ascii.eqb Bool.eqb].
  cbn. rewrite Em, Ec, Hcode. cbn [orb].
  assert (Hor : JS.ToString_throws (JS.or m fallback) = false).
  { unfold JS.or. destruct (JS.truthy m); [assumption | reflexivity]. }
  rewrite Hor. reflexivity.
Qed.


(** * Finalization *)

Lemma finalization_count_finish s chunks : finalization_count (finish s chunks) = 1%nat.
Proof.
  unfold finish. destruct (s_fileStream s); [reflexivity|].
  destruct (s_stream s); reflexivity.
Qed.

Lemma finalization_count_fail s err : finalization_count (fail s err) = 1%nat.
Proof.
  unfold fail. destruct (s_fileStream s); [reflexivity|].
  destruct (s_stream s); reflexivity.
Qed.

Lemma finalization_count_step JSON_parse s ev chunks :
  finalization_count (actions_step JSON_parse s ev chunks) =
  if terminal JSON_parse ev then 1%nat else 0%nat.
Proof.
  destruct ev as [|data [|]|err]; cbn [actions_step terminal].
  - reflexivity.
  - destruct (s_fileStream s); [reflexivity|]. destruct (s_stream s); reflexivity.
  - destruct (classify JSON_parse data) as [e|ev tid [| | |errorMsg code| |]];
      cbn [handled]; try reflexivity.
    + change (finalization_count (finish s chunks) = 1%nat).
      apply finalization_count_finish.
    + change (finalization_count (fail s (JS.new_Error errorMsg)) = 1%nat).
      apply finalization_count_fail.
  - change (finalization_count (fail s err) = 1%nat).
    apply finalization_count_fail.
Qed.

Lemma finalization_count_actions_of JSON_parse s evs chunks :
  finalization_count (actions_of JSON_parse s evs chunks) =
  List.length (filter (terminal JSON_parse) evs).
Proof.
  revert chunks. induction evs as [|ev rest IH]; intros chunks; cbn [actions_of filter].
  - reflexivity.
  - rewrite finalization_count_app, finalization_count_step, IH.
    destruct (terminal JSON_parse ev); reflexivity.
Qed.

Lemma finalization_count_setup this s : finalization_count (setup this s) = 0%nat.
Proof.
  unfold setup. destruct (s_fileStream s); [reflexivity|].
  destruct (s_stream s); reflexivity.
Qed.

(** C1, as amended.  A session fires one finalization outcome for each
    terminal event it receives (a transport error, or a [task-finished] or
    [task-failed] frame whose branch runs to its end): none when no such
    event arrives, several when several do.  Nothing in the handlers
    remembers that the session was finalized already. *)
Theorem finalizations_count_terminal_events JSON_parse this text options uuid evs :
  finalization_count (trace (synthesize JSON_parse this text options uuid evs)) =
  List.length (filter (terminal JSON_parse) evs).
Proof.
  rewrite trace_synthesize, finalization_count_app.
  rewrite finalization_count_setup, finalization_count_actions_of.
  reflexivity.
Qed.

(** C1 fails as stated: in stream mode a [task-failed] frame that arrives
    twice puts two error events on the stream. *)
Lemma finalization_not_exactly_once :
  finalization_count
    (trace (synthesize JSON.parse engine "hello" stream_options uuid0
              [ws_open; text_frame task_started;
               text_frame (task_failed "quota exceeded");
               text_frame (task_failed "quota exceeded")])) <> 1%nat.
Proof. vm_compute. discriminate. Qed.

(** A session whose transport stays silent after the first frames has
    finalized nothing: no timer is set anywhere. *)
Example silent_transport_never_finalizes :
  finalizations
    (trace (synthesize JSON.parse engine "hello" no_options uuid0
              [ws_open; text_frame task_started; binary_frame "AA"])) = [].
Proof. vm_compute. reflexivity. Qed.

Example repeated_task_failed_stream_errors :
  finalizations
    (trace (synthesize JSON.parse engine "hello" stream_options uuid0
              [ws_open; text_frame task_started;
               text_frame (task_failed "quota exceeded");
               text_frame (task_failed "quota exceeded")])) =
  [outputStream_emit_error (JS.new_Error (JS.str "quota exceeded"));
   outputStream_emit_error (JS.new_Error (JS.str "quota exceeded"))].
Proof. vm_compute. reflexivity. Qed.

Example error_then_task_finished :
  finalizations
    (trace (synthesize JSON.parse engine "hello" stream_options uuid0
              [ws_open; ws_error (JS.new_Error (JS.str "socket hang up"));
               text_frame task_finished])) =
  [outputStream_emit_error (JS.new_Error (JS.str "socket hang up"));
   outputStream_end].
Proof. vm_compute. reflexivity. Qed.

(** * Binary frames *)

Lemma file_written_handled s chunks c : file_written (handled s chunks c) = [].
Proof.
  destruct c as [e|ev tid [| | |errorMsg code| |]]; cbn; try reflexivity;
    unfold finish, fail; destruct (s_fileStream s), (s_stream s); reflexivity.
Qed.

Lemma stream_written_handled s chunks c : stream_written (handled s chunks c) = [].
Proof.
  destruct c as [e|ev tid [| | |errorMsg code| |]]; cbn; try reflexivity;
    unfold finish, fail; destruct (s_fileStream s), (s_stream s); reflexivity.
Qed.

Lemma sink_step JSON_parse s ev chunks :
  sink_contents s (chunks_step s ev chunks) (actions_step JSON_parse s ev chunks) =
  (sink_contents s chunks [] ++ binary_payloads [ev])%list.
Proof.
  unfold sink_contents, chunks_step.
  destruct ev as [|data [|]|err]; cbn [actions_step binary_payloads].
  - destruct (s_fileStream s), (s_stream s); cbn; rewrite ?app_nil_r; reflexivity.
  - destruct (s_fileStream s), (s_stream s); reflexivity.
  - rewrite file_written_handled, stream_written_handled.
    destruct (s_fileStream s), (s_stream s); cbn; rewrite ?app_nil_r; reflexivity.
  - unfold fail.
    destruct (s_fileStream s), (s_stream s); cbn; rewrite ?app_nil_r; reflexivity.
Qed.

Lemma sink_contents_app s chunks tr1 tr2 :
  sink_contents s chunks (tr1 ++ tr2) =
  match sink_of s with
  | BufferSink => chunks
  | _ => (sink_contents s chunks tr1 ++ sink_contents s chunks tr2)%list
  end.
Proof.
  unfold sink_contents, sink_of.
  destruct (s_fileStream s); [apply file_written_app|].
  destruct (s_stream s); [apply stream_written_app | reflexivity].
Qed.

Lemma binary_payloads_cons ev evs :
  binary_payloads (ev :: evs) = (binary_payloads [ev] ++ binary_payloads evs)%list.
Proof. destruct ev as [|data [|]|err]; reflexivity. Qed.

Lemma sink_actions_of JSON_parse s evs chunks :
  sink_contents s (chunks_after s evs chunks) (actions_of JSON_parse s evs chunks) =
  (sink_contents s chunks [] ++ binary_payloads evs)%list.
Proof.
  revert chunks. induction evs as [|ev rest IH]; intros chunks.
  - cbn [chunks_after actions_of binary_payloads]. rewrite app_nil_r. reflexivity.
  - cbn [chunks_after actions_of]. rewrite binary_payloads_cons.
    pose proof (sink_step JSON_parse s ev chunks) as Hstep.
    pose proof (IH (chunks_step s ev chunks)) as Hrest.
    revert Hstep Hrest. rewrite sink_contents_app.
    unfold sink_contents, sink_of.
    destruct (s_fileStream s) as [path|].
    + cbn [file_written]. intros -> ->. reflexivity.
    + destruct (s_stream s).
      * cbn [stream_written]. intros -> ->. reflexivity.
      * intros -> ->. rewrite app_assoc. reflexivity.
Qed.

(** C9.  Whatever the history, and whether or not a [task-started] frame
    came first, the active sink holds the payloads of all the binary
    frames received, in arrival order: written to the file in file mode,
    to the stream in stream mode, kept in [audioChunks] otherwise. *)
Theorem binary_frames_reach_the_sink JSON_parse this text options uuid evs :
  sink_contents (closure text options uuid)
    (final_chunks (synthesize JSON_parse this text options uuid evs))
    (trace (synthesize JSON_parse this text options uuid evs)) =
  binary_payloads evs.
Proof.
  rewrite trace_synthesize, final_chunks_synthesize.
  set (s := closure text options uuid).
  pose proof (sink_actions_of JSON_parse s evs []) as H.
  revert H. rewrite sink_contents_app. unfold sink_contents, sink_of, setup.
  destruct (s_fileStream s) as [path|].
  - cbn. intros ->. reflexivity.
  - destruct (s_stream s); cbn; intros ->; reflexivity.
Qed.

Example binary_before_task_started :
  let run := synthesize JSON.parse engine "hello" no_options uuid0
               [ws_open; binary_frame "AA"; text_frame task_started; binary_frame "BB"] in
  final_chunks run = [list_byte_of_string "AA"; list_byte_of_string "BB"].
Proof. vm_compute. reflexivity. Qed.


(** * Buffer mode *)

Lemma buffer_mode_binaries JSON_parse s bs chunks :
  sink_of s = BufferSink ->
  actions_of JSON_parse s (map binary bs) chunks = [] /\
  chunks_after s (map binary bs) chunks = (chunks ++ bs)%list.
Proof.
  unfold sink_of. intros Hs. revert chunks.
  induction bs as [|b bs IH]; intros chunks; cbn [map actions_of chunks_after].
  - rewrite app_nil_r. auto.
  - unfold actions_step, chunks_step.
    destruct (s_fileStream s); [discriminate|].
    destruct (s_stream s); [discriminate|].
    cbn [binary app].
    destruct (IH (chunks ++ [Buffer_from b])%list) as [H1 H2].
    rewrite H1, H2. unfold Buffer_from. rewrite <- app_assoc. auto.
Qed.

Lemma sink_of_no_options text uuid : sink_of (closure text no_options uuid) = BufferSink.
Proof. reflexivity. Qed.

(** C2.  With no option set: the open callback sends [run-task] with the
    task id made from the UUID; a [task-started] frame makes the session
    send [continue-task] with the request text and then [finish-task];
    binary frames [bs] followed by [task-finished] close the transport and
    resolve the promise with the concatenation of [bs] in arrival order. *)
Theorem default_options_scenario JSON_parse this text uuid started finished
    (bs : list Buffer) :
  event_is JSON_parse started "task-started" = true ->
  event_is JSON_parse finished "task-finished" = true ->
  let run evs := synthesize JSON_parse this text no_options uuid evs in
  let task_header action :=
    {| action := action; h_task_id := JS.remove_hyphens uuid; streaming := "duplex" |} in
  let run_task :=
    RunTask (task_header "run-task") "audio" "tts" "SpeechSynthesizer" "cosyvoice-v3-plus"
      {| text_type := "PlainText"; p_voice := "longwan"; p_format := "mp3";
         sample_rate := Number.of_int 22050; p_volume := Number.of_int 100;
         rate := Number.of_int 1; p_pitch := Number.of_int 1 |} in
  let opened := [new_WebSocket (url this) (headers this); ws_send run_task] in
  let started_ :=
    [ws_send (ContinueTask (task_header "continue-task") text);
     ws_send (FinishTask (task_header "finish-task"))] in
  effects (trace (run [ws_open])) = opened /\
  effects (trace (run [ws_open; ws_message started false])) = (opened ++ started_)%list /\
  promise_state (trace (run (ws_open :: ws_message started false :: map binary bs))) = Pending /\
  effects (trace (run (ws_open :: ws_message started false :: map binary bs ++
                       [ws_message finished false]))) =
    (opened ++ started_ ++ [ws_close; resolve (ResolvedBuffer (Buffer_concat bs))])%list /\
  promise_state (trace (run (ws_open :: ws_message started false :: map binary bs ++
                             [ws_message finished false]))) =
    Fulfilled (ResolvedBuffer (Buffer_concat bs)).
Proof.
  intros Hstarted Hfinished run task_header run_task opened started_.
  apply event_is_started in Hstarted as [tid1 Hstarted].
  apply event_is_finished in Hfinished as [tid2 Hfinished].
  pose proof (sink_of_no_options text uuid) as Hsink.
  subst run. cbv beta. rewrite !trace_synthesize.
  set (s := closure text no_options uuid) in *.
  assert (Hopen : effects (setup this s ++ actions_of JSON_parse s [ws_open] []) = opened)
    by reflexivity.
  assert (Hst : effects (setup this s ++
                         actions_of JSON_parse s [ws_open; ws_message started false] []) =
                (opened ++ started_)%list).
  { cbn [actions_of actions_step chunks_step]. rewrite Hstarted. reflexivity. }
  assert (Hbin : forall tail,
             actions_of JSON_parse s
               (ws_open :: ws_message started false :: map binary bs ++ tail) [] =
             (actions_of JSON_parse s [ws_open; ws_message started false] [] ++
              actions_of JSON_parse s tail bs)%list).
  { intros tail.
    change (ws_open :: ws_message started false :: map binary bs ++ tail)
      with ([ws_open; ws_message started false] ++ (map binary bs ++ tail))%list.
    rewrite actions_of_app, actions_of_app.
    destruct (buffer_mode_binaries JSON_parse s bs
                (chunks_after s [ws_open; ws_message started false] []) Hsink) as [-> ->].
    reflexivity. }
  assert (Hfin : effects (setup this s ++
                   actions_of JSON_parse s
                     (ws_open :: ws_message started false :: map binary bs ++
                      [ws_message finished false]) []) =
                 (opened ++ started_ ++
                  [ws_close; resolve (ResolvedBuffer (Buffer_concat bs))])%list).
  { rewrite Hbin, app_assoc, effects_app, Hst.
    cbn [actions_of actions_step chunks_step]. rewrite Hfinished.
    rewrite <- app_assoc. reflexivity. }
  split; [exact Hopen|].
  split; [exact Hst|].
  split; [|split; [exact Hfin|]].
  - rewrite <- (app_nil_r (map binary bs)), Hbin, app_assoc.
    rewrite <- promise_state_effects, effects_app, Hst. reflexivity.
  - rewrite <- promise_state_effects, Hfin. reflexivity.
Qed.

Lemma default_options_scenario_AABB :
  event_is JSON.parse started_frame "task-started" = true /\
  event_is JSON.parse finished_frame "task-finished" = true /\
  promise_state
    (trace (synthesize JSON.parse engine "hello" no_options uuid0
              [ws_open; ws_message started_frame false; binary AA; binary BB;
               ws_message finished_frame false])) =
  Fulfilled (ResolvedBuffer (list_byte_of_string "AABB")).
Proof.
  split; [vm_compute; reflexivity|].
  split; [vm_compute; reflexivity|].
  apply (default_options_scenario JSON.parse engine "hello" uuid0
           started_frame finished_frame [AA; BB]);
    vm_compute; reflexivity.
Defined.

(** * Stream mode *)

Lemma stream_written_actions_of JSON_parse s evs chunks :
  sink_of s = StreamSink ->
  stream_written (actions_of JSON_parse s evs chunks) = binary_payloads evs.
Proof.
  intros Hs. pose proof (sink_actions_of JSON_parse s evs chunks) as H.
  revert H Hs. unfold sink_contents, sink_of.
  destruct (s_fileStream s); [discriminate|].
  destruct (s_stream s); [|discriminate]. auto.
Qed.

Lemma stream_mode_setup this s :
  sink_of s = StreamSink ->
  setup this s =
  [new_WebSocket (url this) (headers this); resolve ResolvedStream].
Proof.
  unfold sink_of, setup. destruct (s_fileStream s); [discriminate|].
  destruct (s_stream s); [reflexivity | discriminate].
Qed.

Lemma stream_mode_fulfilled JSON_parse this s evs :
  sink_of s = StreamSink ->
  promise_state (setup this s ++ actions_of JSON_parse s evs []) =
  Fulfilled ResolvedStream.
Proof.
  intros Hs. rewrite (stream_mode_setup this s Hs), promise_state_app.
  apply settle_settled. discriminate.
Qed.

(** C3, as amended.  In stream mode without a file sink the promise is
    resolved with the live stream while [synthesize] itself runs, before
    the transport reports that it is open and whether or not it ever
    does; the payloads of the binary frames are written to that stream
    afterwards, in arrival order. *)
Theorem stream_resolved_at_creation JSON_parse this text options uuid evs :
  sink_of (closure text options uuid) = StreamSink ->
  let run evs := synthesize JSON_parse this text options uuid evs in
  trace (run []) =
    [new_WebSocket (url this) (headers this);
     resolve ResolvedStream] /\
  promise_state (trace (run evs)) = Fulfilled ResolvedStream /\
  exists later,
    trace (run evs) = trace (run []) ++ later /\
    stream_written later = binary_payloads evs.
Proof.
  intros Hs run. subst run. cbv beta. rewrite !trace_synthesize.
  set (s := closure text options uuid) in *.
  cbn [actions_of]. rewrite app_nil_r.
  split; [apply stream_mode_setup; exact Hs|].
  split; [apply stream_mode_fulfilled; exact Hs|].
  exists (actions_of JSON_parse s evs []). split; [reflexivity|].
  apply stream_written_actions_of. exact Hs.
Qed.

Lemma stream_resolved_at_creation_witness :
  sink_of (closure "hello" stream_options uuid0) = StreamSink /\
  promise_state
    (trace (synthesize JSON.parse engine "hello" stream_options uuid0
              [ws_open; text_frame task_started; binary AA])) =
  Fulfilled ResolvedStream.
Proof.
  split; [reflexivity|].
  apply (stream_resolved_at_creation JSON.parse engine "hello" stream_options uuid0
           [ws_open; text_frame task_started; binary AA]).
  reflexivity.
Defined.

(** C3 fails as stated: the promise is already resolved when no transport
    event has been delivered, so the resolution does not wait for the
    open event. *)
Lemma stream_resolved_before_open :
  promise_state
    (trace (synthesize JSON.parse engine "hello" stream_options uuid0 [])) <> Pending.
Proof. vm_compute. discriminate. Qed.

Example stream_resolved_though_never_open :
  promise_state
    (trace (synthesize JSON.parse engine "hello" stream_options uuid0
              [ws_error (JS.new_Error (JS.str "connect ECONNREFUSED"))])) =
  Fulfilled ResolvedStream.
Proof. vm_compute. reflexivity. Qed.

(** * Transport errors *)

(** C4, at the failing input.  In every output mode, a session that is
    opened and then receives a transport error never calls [ws.close()]:
    the error callback finalizes the sink and returns. *)
Theorem ws_error_does_not_close JSON_parse this text options uuid err :
  ~ In ws_close
      (trace (synthesize JSON_parse this text options uuid [ws_open; ws_error err])).
Proof.
  rewrite trace_synthesize.
  set (s := closure text options uuid).
  unfold setup. cbn [actions_of actions_step]. unfold fail.
  destruct (s_fileStream s); [|destruct (s_stream s)]; cbn;
    intros H; repeat (destruct H as [H|H]; [discriminate|]); exact H.
Qed.

Example ws_error_trace :
  effects
    (trace (synthesize JSON.parse engine "hello" no_options uuid0
              [ws_open; ws_error (JS.new_Error (JS.str "socket hang up"))])) =
  [new_WebSocket (url engine) (headers engine);
   ws_send (runTaskCmd (closure "hello" no_options uuid0));
   reject (JS.new_Error (JS.str "socket hang up"))].
Proof. vm_compute. reflexivity. Qed.

Lemma task_events_close JSON_parse s data chunks :
  (event_is JSON_parse data "task-finished" = true \/
   event_is JSON_parse data "task-failed" = true) ->
  In ws_close (handled s chunks (classify JSON_parse data)).
Proof.
  unfold event_is.
  destruct (classify JSON_parse data) as [|ev tid k] eqn:C; [intros [H|H]; discriminate|].
  apply classify_readable in C as (msg & h & _ & _ & _ & _ & _ & _ & ->).
  intros [H|H]; apply strict_eq_string_true in H; subst ev; unfold kind_of; cbn.
  - auto.
  - destruct (JS.member h JS.error_message), (JS.member h JS.error_code); cbn; auto.
    match goal with |- context [if ?c then _ else _] => destruct c end; cbn; auto.
Qed.

(** * Task failure *)

Lemma no_settle_step JSON_parse s ev chunks :
  sink_of s = BufferSink ->
  terminal JSON_parse ev = false ->
  forallb (fun a => negb (settles a)) (actions_step JSON_parse s ev chunks) = true.
Proof.
  unfold sink_of. intros Hs.
  destruct ev as [|data [|]|err]; cbn [actions_step terminal]; try discriminate.
  - reflexivity.
  - destruct (s_fileStream s); [discriminate|]. destruct (s_stream s); [discriminate|].
    reflexivity.
  - destruct (classify JSON_parse data) as [e|ev tid [| | |errorMsg code| |]];
      try discriminate; reflexivity.
Qed.

Lemma no_settle_actions_of JSON_parse s evs chunks :
  sink_of s = BufferSink ->
  forallb (fun ev => negb (terminal JSON_parse ev)) evs = true ->
  forallb (fun a => negb (settles a)) (actions_of JSON_parse s evs chunks) = true.
Proof.
  intros Hs. revert chunks.
  induction evs as [|ev rest IH]; intros chunks H; cbn in *; [reflexivity|].
  apply andb_prop in H as [Hev Hrest].
  rewrite forallb_app, IH by assumption.
  rewrite no_settle_step; auto.
  destruct (terminal JSON_parse ev); [discriminate | reflexivity].
Qed.

Lemma buffer_mode_pending JSON_parse this s evs :
  sink_of s = BufferSink ->
  forallb (fun ev => negb (terminal JSON_parse ev)) evs = true ->
  promise_state (setup this s ++ actions_of JSON_parse s evs []) = Pending.
Proof.
  intros Hs Hevs. rewrite promise_state_app.
  rewrite settle_none by (apply no_settle_actions_of; assumption).
  revert Hs. unfold sink_of, setup.
  destruct (s_fileStream s); [discriminate|].
  destruct (s_stream s); [discriminate | reflexivity].
Qed.

Lemma buffer_mode_chunks s evs chunks :
  sink_of s = BufferSink ->
  chunks_after s evs chunks = (chunks ++ binary_payloads evs)%list.
Proof.
  intros Hs. pose proof (sink_actions_of (fun _ => None) s evs chunks) as H.
  revert H Hs. unfold sink_contents, sink_of.
  destruct (s_fileStream s); [discriminate|].
  destruct (s_stream s); [discriminate|]. auto.
Qed.

(** C5, as amended.  In buffer mode, when no terminal event came before,
    a [task-failed] frame whose fields convert to strings makes the
    session call [ws.close()] and then reject the promise with an Error
    whose message is [header.error_message] when that is truthy, and the
    fallback when it is absent or falsy (the empty string included). *)
Theorem task_failed_rejects JSON_parse this text options uuid evs data m code :
  sink_of (closure text options uuid) = BufferSink ->
  forallb (fun ev => negb (terminal JSON_parse ev)) evs = true ->
  event_is JSON_parse data "task-failed" = true ->
  header_field JSON_parse data JS.error_message = Some m ->
  header_field JSON_parse data JS.error_code = Some code ->
  JS.ToString_throws m = false ->
  JS.ToString_throws code = false ->
  let run evs := synthesize JSON_parse this text options uuid evs in
  let err :=
    JS.new_Error (if JS.truthy m then m else JS.str "CosyVoice task failed") in
  effects (trace (run (evs ++ [ws_message data false]))) =
    (effects (trace (run evs)) ++ [ws_close; reject err])%list /\
  promise_state (trace (run (evs ++ [ws_message data false]))) = Rejected err.
Proof.
  intros Hs Hevs Hev Hm Hcode Tm Tcode run err. subst run. cbv beta.
  destruct (event_is_failed _ _ _ _ Hev Hm Hcode Tm Tcode) as [tid C].
  rewrite !trace_synthesize.
  set (s := closure text options uuid) in *.
  rewrite actions_of_app. cbn [actions_of actions_step]. rewrite C, app_nil_r.
  cbn [handled]. unfold fail.
  assert (Hf : s_fileStream s = None /\ s_stream s = false).
  { revert Hs. unfold sink_of. destruct (s_fileStream s); [discriminate|].
    destruct (s_stream s); [discriminate | auto]. }
  destruct Hf as [-> ->]. rewrite app_assoc. split.
  - rewrite effects_app. reflexivity.
  - rewrite promise_state_app, buffer_mode_pending by assumption. reflexivity.
Qed.

Lemma task_failed_rejects_witness :
  sink_of (closure "hello" no_options uuid0) = BufferSink /\
  event_is JSON.parse quota_frame "task-failed" = true /\
  header_field JSON.parse quota_frame JS.error_message = Some (JS.str "quota exceeded") /\
  promise_state
    (trace (synthesize JSON.parse engine "hello" no_options uuid0
              ([ws_open; text_frame task_started; binary AA] ++
               [ws_message quota_frame false]))) =
  Rejected (JS.new_Error (JS.str "quota exceeded")).
Proof.
  split; [reflexivity|]. split; [vm_compute; reflexivity|].
  split; [vm_compute; reflexivity|].
  apply (task_failed_rejects JSON.parse engine "hello" no_options uuid0
           [ws_open; text_frame task_started; binary AA] quota_frame
           (JS.str "quota exceeded") (JS.str "Throttling"));
    vm_compute; reflexivity.
Defined.

(** C5 fails as stated: a [task-failed] frame whose [error_message] field
    is present and is the empty string is answered with the fallback
    message, not with the field. *)
Lemma empty_error_message_gets_fallback :
  header_field JSON.parse empty_message_frame JS.error_message =
    Some (JS.str EmptyString) /\
  promise_state
    (trace (synthesize JSON.parse engine "hello" no_options uuid0
              [ws_open; ws_message empty_message_frame false])) <>
  Rejected (JS.new_Error (JS.str EmptyString)).
Proof.
  split; [vm_compute; reflexivity|].
  vm_compute. intros H. discriminate H.
Qed.

Example empty_error_message_trace :
  promise_state
    (trace (synthesize JSON.parse engine "hello" no_options uuid0
              [ws_open; ws_message empty_message_frame false])) =
  Rejected (JS.new_Error (JS.str "CosyVoice task failed")).
Proof. vm_compute. reflexivity. Qed.

Example absent_error_message_trace :
  promise_state
    (trace (synthesize JSON.parse engine "hello" no_options uuid0
              [ws_open; text_frame task_failed_bare])) =
  Rejected (JS.new_Error (JS.str "CosyVoice task failed")).
Proof. vm_compute. reflexivity. Qed.


(** * Pitch *)

(** C7.  The pitch sent in [run-task] is the constant 1 whatever the
    caller passes, and two calls that differ only in [options.pitch] do
    the same thing on every history. *)
Theorem pitch_is_ignored JSON_parse this text options uuid evs p1 p2 :
  option_map p_pitch
    (parameters_of (runTaskCmd (closure text (with_pitch options p1) uuid))) =
    Some (Number.of_int 1) /\
  runTaskCmd (closure text (with_pitch options p1) uuid) =
    runTaskCmd (closure text (with_pitch options p2) uuid) /\
  forall chunks,
    synthesize JSON_parse this text (with_pitch options p1) uuid evs chunks =
    synthesize JSON_parse this text (with_pitch options p2) uuid evs chunks.
Proof. repeat split. Qed.

Example pitch_two_is_sent_as_one :
  effects
    (trace (synthesize JSON.parse engine "hello"
              (with_pitch no_options (Some (Number.of_int 2))) uuid0 [ws_open])) =
  effects (trace (synthesize JSON.parse engine "hello" no_options uuid0 [ws_open])).
Proof. vm_compute. reflexivity. Qed.

(** * Malformed text frames *)





(** The frames that end in the [catch] are exactly the frames for which
    the handler writes the parse-error line. *)
Lemma caught_iff_logged JSON_parse s chunks data e :
  caught JSON_parse data = Some e <->
  In (logger error (ErrorParsing e)) (snd (on_message JSON_parse s data false chunks)).
Proof.
  rewrite on_message_text. cbn [snd]. unfold caught.
  destruct (classify JSON_parse data) as [e'|ev tid k]; cbn [handled].
  - split.
    + intros [= ->]. left. reflexivity.
    + intros [[= ->]|[]]. reflexivity.
  - destruct k; cbn [In]; unfold finish, fail;
      destruct (s_fileStream s), (s_stream s); cbn [In];
      (split;
       [ try discriminate; intros [= <-]; right; right; left; reflexivity
       | intros H;
         repeat (destruct H as [H|H]; [try discriminate H|]); try contradiction;
         injection H as <-; reflexivity ]).
Qed.




Example non_json_mid_task :
  promise_state
    (trace (synthesize JSON.parse engine "hello" no_options uuid0
              [ws_open; text_frame task_started; binary AA;
               text_frame "not json"; text_frame "{'payload':{}}"; text_frame "null";
               binary BB; text_frame task_finished])) =
  Fulfilled (ResolvedBuffer (list_byte_of_string "AABB")).
Proof. vm_compute. reflexivity. Qed.

(** * File type without a path *)

Lemma no_file_action_handled s chunks c :
  s_fileStream s = None ->
  forallb (fun a => negb (is_file_action a)) (handled s chunks c) = true.
Proof.
  intros Hf.
  destruct c as [e|ev tid [| | |errorMsg code| |]]; cbn; try reflexivity;
    unfold finish, fail; rewrite Hf; destruct (s_stream s); reflexivity.
Qed.

Lemma no_file_action_actions_of JSON_parse s evs chunks :
  s_fileStream s = None ->
  forallb (fun a => negb (is_file_action a)) (actions_of JSON_parse s evs chunks) = true.
Proof.
  intros Hf. revert chunks.
  induction evs as [|ev rest IH]; intros chunks; cbn [actions_of]; [reflexivity|].
  rewrite forallb_app, IH, andb_true_r.
  destruct ev as [|data [|]|err]; cbn [actions_step].
  - reflexivity.
  - rewrite Hf. destruct (s_stream s); reflexivity.
  - apply no_file_action_handled. exact Hf.
  - unfold fail. rewrite Hf. destruct (s_stream s); reflexivity.
Qed.

Lemma closure_without_output text options uuid :
  truthy_string (output options) = false ->
  closure text options uuid = closure text (without_file options) uuid.
Proof.
  intros Hout. unfold closure. cbn [outputType output without_file voice format
    speed volume pitch stream].
  rewrite Hout. destruct (outputType options) as [t|]; [|reflexivity].
  rewrite andb_false_r. reflexivity.
Qed.

(** C10.  With [outputType] ['file'] and no usable [output] path, no file
    is opened and nothing is ever written to one; the call behaves as if
    [outputType] had not been given: in stream mode the promise resolves
    with the live stream, otherwise a [task-finished] frame resolves it
    with the concatenation of the binary payloads received. *)
Theorem file_type_without_output JSON_parse this text options uuid evs finished :
  outputType options = Some "file" ->
  truthy_string (output options) = false ->
  let run options evs := synthesize JSON_parse this text options uuid evs in
  s_fileStream (closure text options uuid) = None /\
  forallb (fun a => negb (is_file_action a)) (trace (run options evs)) = true /\
  (forall chunks, run options evs chunks = run (without_file options) evs chunks) /\
  (default false (stream options) = true ->
   promise_state (trace (run options evs)) = Fulfilled ResolvedStream) /\
  (default false (stream options) = false ->
   forallb (fun ev => negb (terminal JSON_parse ev)) evs = true ->
   event_is JSON_parse finished "task-finished" = true ->
   promise_state (trace (run options (evs ++ [ws_message finished false]))) =
   Fulfilled (ResolvedBuffer (Buffer_concat (binary_payloads evs)))).
Proof.
  intros Htype Hout run. subst run. cbv beta.
  assert (Hf : s_fileStream (closure text options uuid) = None).
  { unfold closure; cbn [s_fileStream]. rewrite Htype, Hout. reflexivity. }
  split; [exact Hf|]. split; [|split; [|split]].
  - rewrite trace_synthesize, forallb_app, no_file_action_actions_of by exact Hf.
    unfold setup. rewrite Hf. destruct (s_stream _); reflexivity.
  - intros chunks. unfold synthesize.
    rewrite (closure_without_output text options uuid Hout). reflexivity.
  - intros Hstream. rewrite trace_synthesize.
    apply stream_mode_fulfilled.
    unfold sink_of. rewrite Hf. cbn [closure s_stream]. rewrite Hstream. reflexivity.
  - intros Hstream Hevs Hfin.
    assert (Hs : sink_of (closure text options uuid) = BufferSink).
    { unfold sink_of. rewrite Hf. cbn [closure s_stream]. rewrite Hstream. reflexivity. }
    apply event_is_finished in Hfin as [tid C].
    rewrite trace_synthesize.
    set (s := closure text options uuid) in *.
    rewrite actions_of_app, app_assoc, promise_state_app.
    rewrite buffer_mode_pending by assumption.
    cbn [actions_of actions_step]. rewrite C. cbn [handled app]. unfold finish.
    rewrite Hf. replace (s_stream s) with false
      by (revert Hs; unfold sink_of; rewrite Hf; destruct (s_stream s); congruence).
    rewrite buffer_mode_chunks by exact Hs. reflexivity.
Qed.

Lemma file_type_without_output_witness :
  outputType file_without_output = Some "file" /\
  truthy_string (output file_without_output) = false /\
  promise_state
    (trace (synthesize JSON.parse engine "hello" file_without_output uuid0
              ([ws_open; text_frame task_started; binary AA; binary BB] ++
               [ws_message finished_frame false]))) =
  Fulfilled (ResolvedBuffer (list_byte_of_string "AABB")).
Proof.
  split; [reflexivity|]. split; [reflexivity|].
  apply (file_type_without_output JSON.parse engine "hello" file_without_output uuid0
           [ws_open; text_frame task_started; binary AA; binary BB]
           finished_frame);
    vm_compute; reflexivity.
Defined.

(** A [task-failed] frame whose [error_code] is an object with a
    [toString] key: the log line of the branch throws after [ws.close()],
    the [catch] swallows it, and the promise stays pending. *)
Example unconvertible_error_code :
  let run :=
    synthesize JSON.parse engine "hello" no_options uuid0
      [ws_open;
       text_frame "{'header':{'event':'task-failed','error_code':{'toString':1}}}"] in
  effects (trace run) =
    [new_WebSocket (url engine) (headers engine);
     ws_send (runTaskCmd (closure "hello" no_options uuid0));
     ws_close] /\
  promise_state (trace run) = Pending.
Proof. vm_compute. split; reflexivity. Qed.

(** * The speed mapping *)

Lemma Math_min_two x :
  Math.min [two; x] =
  if Number.is_nan x then Number.NaN else if Number.lt x two then x else two.
Proof.
  unfold Math.min; cbn [Math.min_loop].
  change (Number.is_nan two) with false.
  change (Number.is_neg_zero two) with false.
  change (Number.lt two Number.pos_infinity) with true.
  change (Number.is_pos_zero two) with false.
  cbn [andb]. rewrite andb_false_r. reflexivity.
Qed.

Lemma Math_max_half y :
  Math.max [half; y] =
  if Number.is_nan y then Number.NaN else if Number.gt y half then y else half.
Proof.
  unfold Math.max; cbn [Math.max_loop].
  change (Number.is_nan half) with false.
  change (Number.is_pos_zero half) with false.
  change (Number.gt half Number.neg_infinity) with true.
  change (Number.is_neg_zero half) with false.
  cbn [andb]. rewrite andb_false_r. reflexivity.
Qed.

Lemma cosySpeed_eq speed :
  cosySpeed speed =
  if Number.is_nan speed then Number.NaN
  else if Number.lt speed two
       then (if Number.gt speed half then speed else half)
       else two.
Proof.
  unfold cosySpeed. fold two. rewrite Math_min_two, Math_max_half.
  destruct (Number.is_nan speed) eqn:Hn; [reflexivity|].
  destruct (Number.lt speed two); [rewrite Hn|]; reflexivity.
Qed.

Lemma stringify_cosySpeed sp :
  stringify_number (cosySpeed sp) =
  if Number.is_nan sp then JS.null else JS.num (cosySpeed sp).
Proof.
  rewrite cosySpeed_eq.
  destruct (Number.is_nan sp) eqn:Hn; [reflexivity|].
  destruct (Number.lt sp two) eqn:Hlt; [|reflexivity].
  destruct (Number.gt sp half) eqn:Hgt; [|reflexivity].
  destruct sp as [sg|sg| |sg m e]; try discriminate; try reflexivity.
  destruct sg; vm_compute in Hlt, Hgt; discriminate.
Qed.

(** X1.  The rate of the [run-task] command is the speed clamped to
    [[0.5, 2.0]]: the speed itself when it lies strictly between the two
    bounds, the nearer bound otherwise, so it is never below 0.5 nor above
    2.0, and that number is what the frame sent on open carries.  A NaN
    speed is not caught by the clamp: the rate of the command is NaN,
    [JSON.stringify] writes it as [null], and the frame sent carries a
    [null] rate. *)
Theorem run_task_rate JSON_parse this text options uuid :
  let sp := default (Number.of_int 1) (speed options) in
  let r := cosySpeed sp in
  option_map rate (parameters_of (runTaskCmd (closure text options uuid))) = Some r /\
  r = (if Number.is_nan sp then Number.NaN
       else if Number.lt sp two
            then (if Number.gt sp half then sp else half)
            else two) /\
  (if Number.is_nan sp then Number.is_nan r = true
   else Number.lt r half = false /\ Number.gt r two = false) /\
  (exists frame,
      sent_frames (trace (synthesize JSON_parse this text options uuid [ws_open])) =
        [frame] /\
      at_path frame ["payload"; "parameters"; "rate"] =
        Some (if Number.is_nan sp then JS.null else JS.num r)).
Proof.
  intros sp r. split; [reflexivity|]. split; [apply cosySpeed_eq|]. split.
  - subst r. rewrite cosySpeed_eq.
    destruct (Number.is_nan sp) eqn:Hn; [reflexivity|].
    destruct (Number.lt sp two) eqn:Hlt.
    + destruct (Number.gt sp half) eqn:Hgt.
      * revert Hlt Hgt. unfold Number.lt, Number.gt.
        destruct (Number.compare sp two) as [[| |]|]; try discriminate.
        destruct (Number.compare sp half) as [[| |]|]; try discriminate.
        auto.
      * split; reflexivity.
    + split; reflexivity.
  - exists (JSON_stringify (runTaskCmd (closure text options uuid))). split.
    + rewrite trace_synthesize. unfold sent_frames, setup.
      generalize (closure text options uuid) as s. intros s.
      destruct (s_fileStream s), (s_stream s); reflexivity.
    + change (at_path (JSON_stringify (runTaskCmd (closure text options uuid)))
                ["payload"; "parameters"; "rate"])
        with (Some (stringify_number r)).
      subst r. rewrite stringify_cosySpeed. reflexivity.
Qed.

Example nan_rate_is_sent_as_null :
  at_path
    (JSON_stringify
       (runTaskCmd
          (closure "hello"
             {| voice := None; format := None; speed := Some Number.NaN;
                volume := None; pitch := None; stream := None;
                outputType := None; output := None |} uuid0)))
    ["payload"; "parameters"; "rate"] = Some JS.null.
Proof. vm_compute. reflexivity. Qed.

Example speed_examples :
  cosySpeed (Number.of_int 1) = Number.of_int 1 /\
  cosySpeed (Number.of_int 3) = two /\
  cosySpeed (Number.div (Number.of_int 1) (Number.of_int 10)) = half /\
  cosySpeed (Number.of_int (-4)) = half /\
  cosySpeed Number.pos_infinity = two /\
  cosySpeed Number.NaN = Number.NaN.
Proof. vm_compute. repeat split. Qed.

(** * The voice name *)

Lemma substring_all s n : (String.length s <= n)%nat -> substring 0 n s = s.
Proof.
  revert n. induction s as [|c s IH]; intros n Hn.
  - destruct n; reflexivity.
  - destruct n; [cbn in Hn; lia|]. cbn. f_equal. apply IH. cbn in Hn. lia.
Qed.

Lemma replace_absent pattern replacement s :
  occurs pattern s = false -> JS.replace pattern replacement s = s.
Proof.
  induction s as [|c s IH]; cbn [occurs JS.replace]; intros H.
  - apply orb_false_elim in H as [-> _]. reflexivity.
  - apply orb_false_elim in H as [-> H]. f_equal. apply IH. exact H.
Qed.

Lemma prefix_app (p b : string) : String.prefix p (p ++ b) = true.
Proof.
  induction p as [|c p IH]; cbn [append].
  - destruct b; reflexivity.
  - cbn. destruct (ascii_dec c c); [exact IH | congruence].
Qed.

Lemma prefix_split (p s : string) :
  String.prefix p s = true -> exists b, s = (p ++ b)%string.
Proof.
  revert s. induction p as [|c p IH]; intros s H.
  - exists s. reflexivity.
  - destruct s as [|d s]; [discriminate|]. cbn in H.
    destruct (ascii_dec c d) as [->|]; [|discriminate].
    destruct (IH s H) as [b ->]. exists b. reflexivity.
Qed.

Lemma substring_skip (p b : string) (n : nat) :
  substring (String.length p) n (p ++ b) = substring 0 n b.
Proof. induction p as [|c p IH]; cbn; [reflexivity | exact IH]. Qed.

Lemma length_append (a b : string) :
  String.length (a ++ b) = (String.length a + String.length b)%nat.
Proof. induction a as [|c a IH]; cbn; [reflexivity | rewrite IH; reflexivity]. Qed.

Lemma replace_at_prefix (p s : string) :
  String.prefix p s = true ->
  JS.replace p EmptyString s = substring (String.length p) (String.length s) s.
Proof. intros H. destruct s; cbn [JS.replace]; rewrite H; reflexivity. Qed.

Lemma replace_prefix (p b : string) : JS.replace p EmptyString (p ++ b) = b.
Proof.
  rewrite replace_at_prefix by apply prefix_app.
  rewrite substring_skip. apply substring_all.
  rewrite length_append. lia.
Qed.

Lemma occurs_app (p a b : string) : occurs p (a ++ p ++ b) = true.
Proof.
  induction a as [|c a IH].
  - cbn [append]. destruct (p ++ b)%string eqn:E; cbn [occurs];
      rewrite <- E, prefix_app; reflexivity.
  - cbn [append occurs]. rewrite IH. apply orb_true_r.
Qed.

Lemma replace_split_prefix (p s : string) :
  String.prefix p s = true ->
  exists b, s = (p ++ b)%string /\ JS.replace p EmptyString s = b.
Proof.
  intros H. destruct (prefix_split _ _ H) as [b ->].
  exists b. split; [reflexivity | apply replace_prefix].
Qed.

Lemma replace_first (p s : string) :
  occurs p s = true ->
  exists a b,
    s = (a ++ p ++ b)%string /\
    (forall a' b', s = (a' ++ p ++ b')%string ->
       (String.length a <= String.length a')%nat) /\
    JS.replace p EmptyString s = (a ++ b)%string.
Proof.
  induction s as [|c s IH]; intros H.
  - cbn [occurs] in H. rewrite orb_false_r in H.
    destruct (replace_split_prefix _ _ H) as (b & Hb & Hr).
    exists EmptyString, b. split; [exact Hb|]. split; [intros; cbn; lia | exact Hr].
  - destruct (String.prefix p (String c s)) eqn:Hp.
    + destruct (replace_split_prefix _ _ Hp) as (b & Hb & Hr).
      exists EmptyString, b. split; [exact Hb|]. split; [intros; cbn; lia | exact Hr].
    + cbn [occurs] in H. rewrite Hp in H. cbn [orb] in H.
      destruct (IH H) as (a & b & Hs & Hmin & Hr).
      exists (String c a), b. split; [cbn; rewrite <- Hs; reflexivity|]. split.
      * intros a' b' E. destruct a' as [|c' a'].
        -- cbn [append] in E. rewrite E, prefix_app in Hp. discriminate.
        -- cbn [append] in E. injection E as _ E. cbn. apply le_n_S.
           apply (Hmin a' b' E).
      * cbn [JS.replace]. rewrite Hp, Hr. reflexivity.
Qed.

(** X2.  The voice written into [run-task] is the requested voice without
    its first ["zh-CN-"], wherever that stands: a voice in which
    ["zh-CN-"] occurs splits at its first occurrence into [a], the marker
    and [b], and [a ++ b] is sent; in particular ["zh-CN-" ++ v] is sent as
    [v]; a voice in which ["zh-CN-"] does not occur is sent unchanged. *)
Theorem run_task_voice text options uuid v :
  let sent v :=
    option_map p_voice
      (parameters_of (runTaskCmd (closure text (with_voice options (Some v)) uuid))) in
  (occurs "zh-CN-" v = true <-> exists a b, v = (a ++ "zh-CN-" ++ b)%string) /\
  (occurs "zh-CN-" v = false -> sent v = Some v) /\
  (occurs "zh-CN-" v = true ->
   exists a b,
     v = (a ++ "zh-CN-" ++ b)%string /\
     (forall a' b', v = (a' ++ "zh-CN-" ++ b')%string ->
        (String.length a <= String.length a')%nat) /\
     sent v = Some (a ++ b)%string) /\
  sent ("zh-CN-" ++ v)%string = Some v.
Proof.
  intros sent.
  assert (Hsent : forall w, sent w = Some (JS.replace "zh-CN-" EmptyString w)).
  { intros w. reflexivity. }
  split; [|split; [|split]].
  - split.
    + intros H. destruct (replace_first _ _ H) as (a & b & E & _). eauto.
    + intros (a & b & ->). apply occurs_app.
  - intros H. rewrite Hsent. f_equal. apply replace_absent. exact H.
  - intros H. destruct (replace_first _ _ H) as (a & b & E & Hmin & Hr).
    exists a, b. split; [exact E|]. split; [exact Hmin|].
    rewrite Hsent, Hr. reflexivity.
  - rewrite Hsent. f_equal. apply replace_prefix.
Qed.

Lemma run_task_voice_witness :
  (occurs "zh-CN-" "longcheng" = false /\
   option_map p_voice
     (parameters_of
        (runTaskCmd (closure "hello" (with_voice no_options (Some "longcheng")) uuid0))) =
   Some "longcheng") /\
  (occurs "zh-CN-" "my-zh-CN-voice" = true /\
   exists a b,
     "my-zh-CN-voice" = (a ++ "zh-CN-" ++ b)%string /\
     (forall a' b', "my-zh-CN-voice" = (a' ++ "zh-CN-" ++ b')%string ->
        (String.length a <= String.length a')%nat) /\
     option_map p_voice
       (parameters_of
          (runTaskCmd
             (closure "hello" (with_voice no_options (Some "my-zh-CN-voice")) uuid0))) =
     Some (a ++ b)%string).
Proof.
  split; (split; [reflexivity|]).
  - exact (proj1 (proj2 (run_task_voice "hello" no_options uuid0 "longcheng"))
             eq_refl).
  - exact (proj1 (proj2 (proj2 (run_task_voice "hello" no_options uuid0
                                  "my-zh-CN-voice")))
             eq_refl).
Defined.

Example only_the_first_marker_goes :
  JS.replace "zh-CN-" EmptyString "zh-CN-zh-CN-longwan" = "zh-CN-longwan" /\
  JS.replace "zh-CN-" EmptyString "my-zh-CN-voice" = "my-voice".
Proof. split; reflexivity. Qed.

(** X3.  Every voice that [getVoiceOptions] lists is ["zh-CN-"] followed
    by a bare name, is sent to the service as that bare name, and carries a
    language tag that [getSupportedLanguages] lists; the default voice is
    the bare name of a listed voice. *)
Theorem advertised_voices_are_accepted :
  Forall
    (fun v =>
       v = ("zh-CN-" ++ JS.replace "zh-CN-" EmptyString v)%string /\
       occurs "zh-CN-" (JS.replace "zh-CN-" EmptyString v) = false /\
       In (substring 0 5 v) getSupportedLanguages)
    getVoiceOptions /\
  In ("zh-CN-" ++ s_voice (closure EmptyString no_options EmptyString))%string
     getVoiceOptions.
Proof.
  split.
  - unfold getVoiceOptions.
    repeat (constructor; [split; [reflexivity | split; [reflexivity | cbn; auto]]|]).
    constructor.
  - cbn. auto.
Qed.

(** * The task id and the commands *)

Lemma chars_remove_hyphens u :
  chars (JS.remove_hyphens u) = filter (fun c => negb (Ascii.eqb c "-")) (chars u).
Proof.
  induction u as [|c u IH]; cbn; [reflexivity|].
  destruct (Ascii.eqb c "-"); cbn; rewrite IH; reflexivity.
Qed.

Lemma sent_commands_app tr1 tr2 :
  sent_commands (tr1 ++ tr2) = sent_commands tr1 ++ sent_commands tr2.
Proof.
  induction tr1 as [|a tr1 IH]; cbn; [reflexivity|].
  destruct a; cbn; rewrite ?IH; reflexivity.
Qed.

Lemma logged_commands_app tr1 tr2 :
  logged_commands (tr1 ++ tr2) = logged_commands tr1 ++ logged_commands tr2.
Proof.
  induction tr1 as [|a tr1 IH]; cbn; [reflexivity|].
  destruct a as [| | | | | | | | | | | |lv line]; cbn; rewrite ?IH; try reflexivity.
  destruct line; cbn; rewrite ?IH; reflexivity.
Qed.

Lemma sent_commands_finish s chunks : sent_commands (finish s chunks) = [].
Proof. unfold finish. destruct (s_fileStream s), (s_stream s); reflexivity. Qed.

Lemma sent_commands_fail s err : sent_commands (fail s err) = [].
Proof. unfold fail. destruct (s_fileStream s), (s_stream s); reflexivity. Qed.

Lemma logged_commands_finish s chunks : logged_commands (finish s chunks) = [].
Proof. unfold finish. destruct (s_fileStream s), (s_stream s); reflexivity. Qed.

Lemma logged_commands_fail s err : logged_commands (fail s err) = [].
Proof. unfold fail. destruct (s_fileStream s), (s_stream s); reflexivity. Qed.

Lemma kind_started h ev :
  kind_of h ev = Started <-> JS.strict_eq_string ev "task-started" = true.
Proof.
  unfold kind_of.
  destruct (JS.strict_eq_string ev "task-started"); [tauto|].
  destruct (JS.strict_eq_string ev "result-generated"); [split; discriminate|].
  destruct (JS.strict_eq_string ev "task-finished"); [split; discriminate|].
  destruct (JS.strict_eq_string ev "task-failed"); [|split; discriminate].
  destruct (JS.member h JS.error_message), (JS.member h JS.error_code);
    try (split; discriminate).
  destruct (_ || _); split; discriminate.
Qed.

Lemma sent_commands_step JSON_parse s ev chunks :
  sent_commands (actions_step JSON_parse s ev chunks) = replies JSON_parse s ev.
Proof.
  destruct ev as [|data [|]|err]; cbn [actions_step replies].
  - reflexivity.
  - destruct (s_fileStream s); [reflexivity|]. destruct (s_stream s); reflexivity.
  - unfold event_is.
    destruct (classify JSON_parse data) as [e|ev tid k] eqn:C; [reflexivity|].
    apply classify_readable in C as (msg & h & _ & _ & _ & _ & _ & _ & ->).
    pose proof (kind_started h ev) as Hk.
    destruct (kind_of h ev) eqn:K; cbn [handled sent_commands].
    + rewrite (proj1 Hk eq_refl). reflexivity.
    + destruct (JS.strict_eq_string ev "task-started");
        [destruct Hk as [_ Hk]; discriminate (Hk eq_refl) | reflexivity].
    + rewrite sent_commands_finish.
      destruct (JS.strict_eq_string ev "task-started");
        [destruct Hk as [_ Hk]; discriminate (Hk eq_refl) | reflexivity].
    + rewrite sent_commands_fail.
      destruct (JS.strict_eq_string ev "task-started");
        [destruct Hk as [_ Hk]; discriminate (Hk eq_refl) | reflexivity].
    + destruct (JS.strict_eq_string ev "task-started");
        [destruct Hk as [_ Hk]; discriminate (Hk eq_refl) | reflexivity].
    + destruct (JS.strict_eq_string ev "task-started");
        [destruct Hk as [_ Hk]; discriminate (Hk eq_refl) | reflexivity].
  - cbn. apply sent_commands_fail.
Qed.

Lemma sent_commands_actions_of JSON_parse s evs chunks :
  sent_commands (actions_of JSON_parse s evs chunks) =
  flat_map (replies JSON_parse s) evs.
Proof.
  revert chunks. induction evs as [|ev rest IH]; intros chunks; cbn [actions_of flat_map].
  - reflexivity.
  - rewrite sent_commands_app, sent_commands_step, IH. reflexivity.
Qed.

Lemma sent_commands_setup this s : sent_commands (setup this s) = [].
Proof. unfold setup. destruct (s_fileStream s), (s_stream s); reflexivity. Qed.

(** X4.  What a session sends is decided event by event, and the handlers
    keep no record of earlier events: [run-task] for each open event,
    [continue-task] with the request text followed at once by
    [finish-task] for each [task-started] frame, whether or not an open
    event came before it, and nothing for any other event.  So nothing is
    sent while [synthesize] itself runs, and nothing in answer to binary
    frames, other text frames or transport errors. *)
Theorem commands_follow_events JSON_parse this text options uuid evs :
  let s := closure text options uuid in
  let sent evs :=
    sent_commands (trace (synthesize JSON_parse this text options uuid evs)) in
  sent evs = flat_map (replies JSON_parse s) evs /\
  sent [] = [] /\
  sent (evs ++ [ws_open]) = sent evs ++ [runTaskCmd s] /\
  (forall data,
      event_is JSON_parse data "task-started" = true ->
      sent (evs ++ [ws_message data false]) =
        sent evs ++
        [ContinueTask (duplex s "continue-task") text;
         FinishTask (duplex s "finish-task")]) /\
  (forall data,
      event_is JSON_parse data "task-started" = false ->
      sent (evs ++ [ws_message data false]) = sent evs) /\
  (forall data, sent (evs ++ [ws_message data true]) = sent evs) /\
  (forall err, sent (evs ++ [ws_error err]) = sent evs).
Proof.
  intros s sent.
  assert (H : forall evs, sent evs = flat_map (replies JSON_parse s) evs).
  { intros evs'. subst sent. cbv beta.
    rewrite trace_synthesize, sent_commands_app, sent_commands_setup.
    apply sent_commands_actions_of. }
  assert (Hsnoc : forall ev, sent (evs ++ [ev]) = sent evs ++ replies JSON_parse s ev).
  { intros ev. rewrite !H, flat_map_app. cbn [flat_map]. rewrite app_nil_r. reflexivity. }
  split; [apply H|]. split; [apply H|]. split; [apply Hsnoc|].
  split; [|split; [|split]].
  - intros data Hd. rewrite Hsnoc. cbn [replies]. rewrite Hd. reflexivity.
  - intros data Hd. rewrite Hsnoc. cbn [replies]. rewrite Hd. apply app_nil_r.
  - intros data. rewrite Hsnoc. apply app_nil_r.
  - intros err. rewrite Hsnoc. apply app_nil_r.
Qed.

Lemma commands_follow_events_witness :
  event_is JSON.parse started_frame "task-started" = true /\
  sent_commands
    (trace (synthesize JSON.parse engine "hello" no_options uuid0
              ([] ++ [ws_message started_frame false]))) =
  sent_commands (trace (synthesize JSON.parse engine "hello" no_options uuid0 [])) ++
  [ContinueTask (duplex (closure "hello" no_options uuid0) "continue-task") "hello";
   FinishTask (duplex (closure "hello" no_options uuid0) "finish-task")].
Proof.
  split; [vm_compute; reflexivity|].
  refine (proj1 (proj2 (proj2 (proj2
            (commands_follow_events JSON.parse engine "hello" no_options uuid0 []))))
            started_frame _).
  vm_compute. reflexivity.
Defined.

Lemma replies_header JSON_parse s ev :
  Forall (fun cmd =>
            h_task_id (header_of cmd) = s_taskId s /\
            streaming (header_of cmd) = "duplex")
         (replies JSON_parse s ev).
Proof.
  destruct ev as [|data [|]|err]; cbn [replies]; auto.
  destruct (event_is JSON_parse data "task-started"); auto.
Qed.

(** X5.  Every command of a session carries the same task id, the UUID
    without its hyphens (the same characters in the same order, and no
    hyphen among them), and the streaming mode ["duplex"]. *)
Theorem commands_carry_the_task_id JSON_parse this text options uuid evs :
  Forall (fun cmd =>
            h_task_id (header_of cmd) = JS.remove_hyphens uuid /\
            streaming (header_of cmd) = "duplex")
         (sent_commands (trace (synthesize JSON_parse this text options uuid evs))) /\
  chars (JS.remove_hyphens uuid) =
    filter (fun c => negb (Ascii.eqb c "-")) (chars uuid) /\
  ~ In "-"%char (chars (JS.remove_hyphens uuid)).
Proof.
  split; [|split].
  - rewrite trace_synthesize, sent_commands_app, sent_commands_setup,
      sent_commands_actions_of.
    cbn [app]. induction evs as [|ev rest IH]; cbn [flat_map]; [constructor|].
    apply Forall_app. split; [|exact IH].
    apply (replies_header JSON_parse (closure text options uuid) ev).
  - apply chars_remove_hyphens.
  - rewrite chars_remove_hyphens. intros H. apply filter_In in H as [_ H].
    discriminate H.
Qed.

Lemma logged_commands_step JSON_parse s ev chunks :
  logged_commands (actions_step JSON_parse s ev chunks) =
  sent_commands (actions_step JSON_parse s ev chunks).
Proof.
  destruct ev as [|data [|]|err]; cbn [actions_step].
  - reflexivity.
  - destruct (s_fileStream s); [reflexivity|]. destruct (s_stream s); reflexivity.
  - destruct (classify JSON_parse data) as [e|ev tid [| | |errorMsg code| |]];
      cbn; rewrite ?logged_commands_finish, ?sent_commands_finish,
             ?logged_commands_fail, ?sent_commands_fail; reflexivity.
  - cbn. rewrite logged_commands_fail, sent_commands_fail. reflexivity.
Qed.

(** X6.  The log is a complete record of the commands: in every run the
    commands written into the log are the commands sent, in the same
    order. *)
Theorem every_command_is_logged JSON_parse this text options uuid evs :
  logged_commands (trace (synthesize JSON_parse this text options uuid evs)) =
  sent_commands (trace (synthesize JSON_parse this text options uuid evs)).
Proof.
  rewrite trace_synthesize, logged_commands_app, sent_commands_app.
  generalize (closure text options uuid) as s. intros s.
  f_equal.
  - unfold setup. destruct (s_fileStream s), (s_stream s); reflexivity.
  - generalize (@nil Buffer) as chunks.
    induction evs as [|ev rest IH]; intros chunks; cbn [actions_of]; [reflexivity|].
    rewrite logged_commands_app, sent_commands_app, logged_commands_step, IH.
    reflexivity.
Qed.

(** * One event more *)

Lemma trace_snoc JSON_parse this text options uuid evs ev :
  trace (synthesize JSON_parse this text options uuid (evs ++ [ev])) =
  trace (synthesize JSON_parse this text options uuid evs) ++
  actions_step JSON_parse (closure text options uuid) ev
    (chunks_after (closure text options uuid) evs []).
Proof.
  rewrite !trace_synthesize, actions_of_app. cbn [actions_of].
  rewrite app_nil_r, app_assoc. reflexivity.
Qed.

Lemma finish_eq s chunks : finish s chunks = finish_by_sink s chunks.
Proof.
  unfold finish, finish_by_sink, sink_of.
  destruct (s_fileStream s); [reflexivity|]. destruct (s_stream s); reflexivity.
Qed.

Lemma fail_eq s err : fail s err = fail_by_sink s err.
Proof.
  unfold fail, fail_by_sink, sink_of.
  destruct (s_fileStream s); [reflexivity|]. destruct (s_stream s); reflexivity.
Qed.

Lemma effects_finish_by_sink s payloads :
  effects (finish_by_sink s payloads) = finish_by_sink s payloads.
Proof. unfold finish_by_sink. destruct (sink_of s); reflexivity. Qed.

Lemma effects_fail_by_sink s err :
  effects (fail_by_sink s err) = fail_by_sink s err.
Proof. unfold fail_by_sink. destruct (sink_of s); reflexivity. Qed.

Lemma finish_by_sink_chunks s evs :
  finish_by_sink s (chunks_after s evs []) = finish_by_sink s (binary_payloads evs).
Proof.
  unfold finish_by_sink. destruct (sink_of s) eqn:Hs; try reflexivity.
  rewrite buffer_mode_chunks by exact Hs. reflexivity.
Qed.

(** X7.  On a [task-finished] frame, at any point of any history, the
    session closes the transport and then finalizes its sink: in file mode
    it ends the file and resolves with an empty buffer, in stream mode it
    ends the stream, and in buffer mode it resolves with the concatenation
    of the payloads of all the binary frames received so far. *)
Theorem task_finished_by_sink JSON_parse this text options uuid evs finished :
  event_is JSON_parse finished "task-finished" = true ->
  let run evs := synthesize JSON_parse this text options uuid evs in
  effects (trace (run (evs ++ [ws_message finished false]))) =
  effects (trace (run evs)) ++
  ws_close :: finish_by_sink (closure text options uuid) (binary_payloads evs).
Proof.
  intros Hfin run. subst run. cbv beta.
  apply event_is_finished in Hfin as [tid C].
  rewrite trace_snoc, effects_app. f_equal.
  cbn [actions_step]. rewrite C. cbn [handled effects filter is_log negb].
  f_equal. change (effects (finish (closure text options uuid)
                              (chunks_after (closure text options uuid) evs [])) =
                   finish_by_sink (closure text options uuid) (binary_payloads evs)).
  rewrite finish_eq, finish_by_sink_chunks. apply effects_finish_by_sink.
Qed.

Lemma task_finished_by_sink_witness :
  event_is JSON.parse finished_frame "task-finished" = true /\
  effects
    (trace (synthesize JSON.parse engine "hello" stream_options uuid0
              ([ws_open; binary AA] ++ [ws_message finished_frame false]))) =
  effects
    (trace (synthesize JSON.parse engine "hello" stream_options uuid0
              [ws_open; binary AA])) ++
  [ws_close; outputStream_end].
Proof.
  split; [vm_compute; reflexivity|].
  apply (task_finished_by_sink JSON.parse engine "hello" stream_options uuid0
           [ws_open; binary AA] finished_frame).
  vm_compute. reflexivity.
Defined.

(** X8.  On a transport error, at any point of any history, the session
    hands the very error it received to its sink: in file mode it destroys
    the file with it and rejects the promise with it, in stream mode it
    emits it on the stream, in buffer mode it rejects the promise with
    it. *)
Theorem transport_error_by_sink JSON_parse this text options uuid evs err :
  effects
    (trace (synthesize JSON_parse this text options uuid (evs ++ [ws_error err]))) =
  effects (trace (synthesize JSON_parse this text options uuid evs)) ++
  fail_by_sink (closure text options uuid) err.
Proof.
  rewrite trace_snoc, effects_app. f_equal.
  cbn [actions_step effects filter is_log negb].
  change (effects (fail (closure text options uuid) err) =
          fail_by_sink (closure text options uuid) err).
  rewrite fail_eq. apply effects_fail_by_sink.
Qed.

(** X9.  On a [task-failed] frame whose fields convert to strings, in
    every output mode and at any point of any history, the session closes
    the transport and then fails its sink with an Error made from
    [header.error_message], or from the fallback when that is falsy. *)
Theorem task_failed_by_sink JSON_parse this text options uuid evs data m code :
  event_is JSON_parse data "task-failed" = true ->
  header_field JSON_parse data JS.error_message = Some m ->
  header_field JSON_parse data JS.error_code = Some code ->
  JS.ToString_throws m = false ->
  JS.ToString_throws code = false ->
  let run evs := synthesize JSON_parse this text options uuid evs in
  effects (trace (run (evs ++ [ws_message data false]))) =
  effects (trace (run evs)) ++
  ws_close ::
  fail_by_sink (closure text options uuid)
    (JS.new_Error (if JS.truthy m then m else JS.str "CosyVoice task failed")).
Proof.
  intros Hev Hm Hcode Tm Tcode run. subst run. cbv beta.
  destruct (event_is_failed _ _ _ _ Hev Hm Hcode Tm Tcode) as [tid C].
  rewrite trace_snoc, effects_app. f_equal.
  cbn [actions_step]. rewrite C. cbn [handled effects filter is_log negb].
  f_equal.
  change (effects (fail (closure text options uuid) (JS.new_Error (JS.or m fallback))) =
          fail_by_sink (closure text options uuid) (JS.new_Error (JS.or m fallback))).
  rewrite fail_eq. apply effects_fail_by_sink.
Qed.

Lemma task_failed_by_sink_witness :
  event_is JSON.parse quota_frame "task-failed" = true /\
  effects
    (trace (synthesize JSON.parse engine "hello" file_options uuid0
              ([ws_open; binary AA] ++ [ws_message quota_frame false]))) =
  effects
    (trace (synthesize JSON.parse engine "hello" file_options uuid0
              [ws_open; binary AA])) ++
  [ws_close;
   fileStream_destroy (JS.new_Error (JS.str "quota exceeded"));
   reject (JS.new_Error (JS.str "quota exceeded"))].
Proof.
  split; [vm_compute; reflexivity|].
  apply (task_failed_by_sink JSON.parse engine "hello" file_options uuid0
           [ws_open; binary AA] quota_frame
           (JS.str "quota exceeded") (JS.str "Throttling"));
    vm_compute; reflexivity.
Defined.

(** * When the promise settles *)

Lemma is_stream_sink_false s :
  is_stream_sink s = false ->
  sink_of s = BufferSink \/ exists path, sink_of s = FileSink path.
Proof. unfold is_stream_sink. destruct (sink_of s); eauto; discriminate. Qed.

Lemma quiet_step JSON_parse s ev chunks :
  is_stream_sink s = false ->
  terminal JSON_parse ev = false ->
  forallb (fun a => negb (settles a)) (actions_step JSON_parse s ev chunks) = true.
Proof.
  unfold is_stream_sink, sink_of. intros Hs.
  destruct ev as [|data [|]|err]; cbn [actions_step terminal]; try discriminate.
  - reflexivity.
  - destruct (s_fileStream s); [reflexivity|].
    destruct (s_stream s); [discriminate | reflexivity].
  - destruct (classify JSON_parse data) as [e|ev tid [| | |errorMsg code| |]];
      try discriminate; reflexivity.
Qed.

Lemma terminal_step_settles JSON_parse s ev chunks :
  is_stream_sink s = false ->
  terminal JSON_parse ev = true ->
  is_pending (fold_left settle (actions_step JSON_parse s ev chunks) Pending) = false.
Proof.
  unfold is_stream_sink, sink_of. intros Hs.
  destruct ev as [|data [|]|err]; cbn [actions_step terminal]; try discriminate.
  - destruct (classify JSON_parse data) as [e|ev tid [| | |errorMsg code| |]];
      try discriminate; intros _; cbn [handled]; unfold finish, fail;
      destruct (s_fileStream s); try reflexivity;
      destruct (s_stream s); try discriminate; reflexivity.
  - intros _. unfold fail. destruct (s_fileStream s); [reflexivity|].
    destruct (s_stream s); [discriminate | reflexivity].
Qed.

Lemma is_pending_settled tr p :
  is_pending p = false -> is_pending (fold_left settle tr p) = false.
Proof.
  intros Hp. rewrite settle_settled; [exact Hp|]. destruct p; discriminate.
Qed.

Lemma pending_actions_of JSON_parse s evs chunks :
  is_stream_sink s = false ->
  is_pending (fold_left settle (actions_of JSON_parse s evs chunks) Pending) =
  forallb (fun ev => negb (terminal JSON_parse ev)) evs.
Proof.
  intros Hs. revert chunks.
  induction evs as [|ev rest IH]; intros chunks; cbn [actions_of forallb].
  - reflexivity.
  - rewrite fold_left_app.
    destruct (terminal JSON_parse ev) eqn:T; cbn [negb andb].
    + apply is_pending_settled. apply terminal_step_settles; assumption.
    + rewrite (settle_none (actions_step JSON_parse s ev chunks))
        by (apply quiet_step; assumption).
      apply IH.
Qed.

Lemma setup_pending this s :
  is_stream_sink s = false -> promise_state (setup this s) = Pending.
Proof.
  unfold is_stream_sink, sink_of, setup.
  destruct (s_fileStream s); [reflexivity|].
  destruct (s_stream s); [discriminate | reflexivity].
Qed.

(** X10.  Outside stream mode the promise settles at the first terminal
    event and not before: after any history it is pending exactly when no
    transport error and no completed [task-finished] or [task-failed]
    frame has been received. *)
Theorem promise_pending_until_terminal JSON_parse this text options uuid evs :
  is_stream_sink (closure text options uuid) = false ->
  is_pending (promise_state (trace (synthesize JSON_parse this text options uuid evs))) =
  forallb (fun ev => negb (terminal JSON_parse ev)) evs.
Proof.
  intros Hs. rewrite trace_synthesize, promise_state_app.
  rewrite setup_pending by exact Hs.
  apply pending_actions_of. exact Hs.
Qed.

Lemma promise_pending_until_terminal_witness :
  is_stream_sink (closure "hello" file_options uuid0) = false /\
  is_pending
    (promise_state
       (trace (synthesize JSON.parse engine "hello" file_options uuid0
                 [ws_open; text_frame task_started; binary AA]))) = true /\
  is_pending
    (promise_state
       (trace (synthesize JSON.parse engine "hello" file_options uuid0
                 [ws_open; text_frame task_started; binary AA;
                  text_frame task_finished; binary BB]))) = false.
Proof.
  split; [reflexivity|]. split.
  - rewrite (promise_pending_until_terminal JSON.parse engine "hello" file_options uuid0)
      by reflexivity.
    vm_compute. reflexivity.
  - rewrite (promise_pending_until_terminal JSON.parse engine "hello" file_options uuid0)
      by reflexivity.
    vm_compute. reflexivity.
Defined.

Lemma pending_before JSON_parse this text options uuid evs :
  is_stream_sink (closure text options uuid) = false ->
  forallb (fun ev => negb (terminal JSON_parse ev)) evs = true ->
  promise_state (trace (synthesize JSON_parse this text options uuid evs)) = Pending.
Proof.
  intros Hs Hevs.
  pose proof (pending_actions_of JSON_parse (closure text options uuid) evs [] Hs) as H.
  rewrite Hevs in H.
  rewrite trace_synthesize, promise_state_app, setup_pending by exact Hs.
  destruct (fold_left settle _ Pending); [reflexivity | discriminate | discriminate].
Qed.

(** X11.  Outside stream mode, a transport error that arrives before any
    terminal event rejects the promise with the error received, whatever
    frames came before it. *)
Theorem transport_error_rejects JSON_parse this text options uuid evs err :
  is_stream_sink (closure text options uuid) = false ->
  forallb (fun ev => negb (terminal JSON_parse ev)) evs = true ->
  promise_state
    (trace (synthesize JSON_parse this text options uuid (evs ++ [ws_error err]))) =
  Rejected err.
Proof.
  intros Hs Hevs. rewrite trace_snoc, promise_state_app.
  rewrite pending_before by assumption.
  cbn [actions_step]. unfold fail.
  revert Hs. unfold is_stream_sink, sink_of.
  destruct (s_fileStream _); [reflexivity|].
  destruct (s_stream _); [discriminate | reflexivity].
Qed.

Lemma transport_error_rejects_witness :
  is_stream_sink (closure "hello" no_options uuid0) = false /\
  promise_state
    (trace (synthesize JSON.parse engine "hello" no_options uuid0
              ([ws_open; text_frame task_started; binary AA] ++
               [ws_error (JS.new_Error (JS.str "socket hang up"))]))) =
  Rejected (JS.new_Error (JS.str "socket hang up")).
Proof.
  split; [reflexivity|].
  apply (transport_error_rejects JSON.parse engine "hello" no_options uuid0
           [ws_open; text_frame task_started; binary AA]);
    vm_compute; reflexivity.
Defined.

(** * File mode *)

Lemma file_mode_setup this s path :
  sink_of s = FileSink path ->
  setup this s = [createWriteStream path; new_WebSocket (url this) (headers this)].
Proof.
  unfold sink_of, setup. destruct (s_fileStream s) as [p|].
  - intros [= ->]. reflexivity.
  - destruct (s_stream s); discriminate.
Qed.

Lemma file_mode_quiet JSON_parse s evs chunks path :
  sink_of s = FileSink path ->
  chunks_after s evs chunks = chunks /\
  stream_written (actions_of JSON_parse s evs chunks) = [] /\
  file_written (actions_of JSON_parse s evs chunks) = binary_payloads evs.
Proof.
  intros Hs.
  assert (Hf : exists p, s_fileStream s = Some p).
  { revert Hs. unfold sink_of. destruct (s_fileStream s) as [p|]; [eauto|].
    destruct (s_stream s); discriminate. }
  destruct Hf as [p Hf]. split; [|split].
  - revert chunks. induction evs as [|ev rest IH]; intros chunks; cbn [chunks_after].
    + reflexivity.
    + rewrite IH. unfold chunks_step. rewrite Hf.
      destruct ev as [|data [|]|err]; reflexivity.
  - revert chunks. induction evs as [|ev rest IH]; intros chunks; cbn [actions_of].
    + reflexivity.
    + rewrite stream_written_app, IH, app_nil_r.
      destruct ev as [|data [|]|err]; cbn [actions_step].
      * reflexivity.
      * rewrite Hf. reflexivity.
      * apply stream_written_handled.
      * unfold fail. rewrite Hf. reflexivity.
  - pose proof (sink_actions_of JSON_parse s evs chunks) as Hsink.
    revert Hsink. unfold sink_contents. rewrite Hf. cbn [file_written app]. auto.
Qed.

(** X12.  In file mode the file is created before the connection is
    started, every binary payload is written to the file and to nothing
    else ([audioChunks] stays empty and the stream is never written), and
    a [task-finished] frame that comes before any other terminal event
    fulfils the promise with an empty buffer. *)
Theorem file_mode_session JSON_parse this text options uuid evs finished path :
  sink_of (closure text options uuid) = FileSink path ->
  let run evs := synthesize JSON_parse this text options uuid evs in
  (exists later,
      trace (run evs) =
        createWriteStream path :: new_WebSocket (url this) (headers this) :: later /\
      file_written later = binary_payloads evs /\
      stream_written later = []) /\
  final_chunks (run evs) = [] /\
  (forallb (fun ev => negb (terminal JSON_parse ev)) evs = true ->
   event_is JSON_parse finished "task-finished" = true ->
   promise_state (trace (run (evs ++ [ws_message finished false]))) =
   Fulfilled (ResolvedBuffer [])).
Proof.
  intros Hs run. subst run. cbv beta.
  destruct (file_mode_quiet JSON_parse _ evs [] path Hs) as (Hch & Hsw & Hfw).
  split; [|split].
  - exists (actions_of JSON_parse (closure text options uuid) evs []).
    rewrite trace_synthesize, (file_mode_setup this _ path Hs). auto.
  - rewrite final_chunks_synthesize. exact Hch.
  - intros Hevs Hfin. apply event_is_finished in Hfin as [tid C].
    rewrite trace_snoc, promise_state_app.
    rewrite pending_before; [|unfold is_stream_sink; rewrite Hs; reflexivity|exact Hevs].
    cbn [actions_step]. rewrite C. cbn [handled]. rewrite finish_eq.
    unfold finish_by_sink. rewrite Hs. reflexivity.
Qed.

Lemma file_mode_session_witness :
  sink_of (closure "hello" file_options uuid0) = FileSink "/tmp/x.mp3" /\
  event_is JSON.parse finished_frame "task-finished" = true /\
  promise_state
    (trace (synthesize JSON.parse engine "hello" file_options uuid0
              ([ws_open; text_frame task_started; binary AA; binary BB] ++
               [ws_message finished_frame false]))) =
  Fulfilled (ResolvedBuffer []).
Proof.
  split; [reflexivity|]. split; [vm_compute; reflexivity|].
  apply (file_mode_session JSON.parse engine "hello" file_options uuid0
           [ws_open; text_frame task_started; binary AA; binary BB]
           finished_frame "/tmp/x.mp3");
    vm_compute; reflexivity.
Defined.

Lemma closure_with_stream text options uuid b :
  closure text (with_stream options b) uuid =
  set_stream (closure text options uuid) (default false b).
Proof. reflexivity. Qed.

Lemma set_stream_step JSON_parse s b ev chunks path :
  s_fileStream s = Some path ->
  actions_step JSON_parse (set_stream s b) ev chunks = actions_step JSON_parse s ev chunks /\
  chunks_step (set_stream s b) ev chunks = chunks_step s ev chunks.
Proof.
  intros Hf. split.
  - destruct ev as [|data [|]|err]; cbn [actions_step].
    + reflexivity.
    + cbn [set_stream s_fileStream]. rewrite Hf. reflexivity.
    + destruct (classify JSON_parse data) as [e|ev tid [| | |errorMsg code| |]];
        cbn [handled]; try reflexivity; unfold finish, fail;
        cbn [set_stream s_fileStream]; rewrite Hf; reflexivity.
    + unfold fail. cbn [set_stream s_fileStream]. rewrite Hf. reflexivity.
  - unfold chunks_step. cbn [set_stream s_fileStream s_stream]. rewrite Hf.
    destruct ev as [|data [|]|err]; reflexivity.
Qed.

Lemma set_stream_actions_of JSON_parse s b evs chunks path :
  s_fileStream s = Some path ->
  actions_of JSON_parse (set_stream s b) evs chunks = actions_of JSON_parse s evs chunks /\
  chunks_after (set_stream s b) evs chunks = chunks_after s evs chunks.
Proof.
  intros Hf. revert chunks.
  induction evs as [|ev rest IH]; intros chunks; cbn [actions_of chunks_after]; [auto|].
  destruct (set_stream_step JSON_parse s b ev chunks path Hf) as [-> ->].
  destruct (IH (chunks_step s ev chunks)) as [-> ->]. auto.
Qed.

Lemma callbacks_never_resolve_with_stream JSON_parse s evs chunks :
  ~ In (resolve ResolvedStream) (actions_of JSON_parse s evs chunks).
Proof.
  revert chunks. induction evs as [|ev rest IH]; intros chunks; cbn [actions_of]; [auto|].
  intros H. apply in_app_or in H as [H|H]; [|exact (IH _ H)].
  destruct ev as [|data [|]|err]; cbn [actions_step] in H.
  - destruct H as [H|[H|H]]; try discriminate; exact H.
  - destruct (s_fileStream s), (s_stream s); cbn in H;
      repeat (destruct H as [H|H]; [discriminate|]); exact H.
  - destruct (classify JSON_parse data) as [e|ev tid [| | |errorMsg code| |]];
      cbn [handled] in H; unfold finish, fail in H;
      destruct (s_fileStream s), (s_stream s); cbn in H;
      repeat (destruct H as [H|H]; [discriminate|]); exact H.
  - unfold fail in H. destruct (s_fileStream s), (s_stream s); cbn in H;
      repeat (destruct H as [H|H]; [discriminate|]); exact H.
Qed.

(** X13.  A file sink takes precedence over [options.stream]: with
    [outputType] ['file'] and a path, a call does the same thing and
    leaves the same [audioChunks] whatever the [stream] option is; in
    particular the promise is not resolved with the stream. *)
Theorem file_mode_ignores_stream JSON_parse this text options uuid evs path b :
  sink_of (closure text options uuid) = FileSink path ->
  let run options := synthesize JSON_parse this text options uuid evs in
  trace (run (with_stream options b)) = trace (run options) /\
  final_chunks (run (with_stream options b)) = final_chunks (run options) /\
  ~ In (resolve ResolvedStream) (trace (run (with_stream options b))).
Proof.
  intros Hs run. subst run. cbv beta.
  assert (Hf : s_fileStream (closure text options uuid) = Some path).
  { revert Hs. unfold sink_of. destruct (s_fileStream _) as [p|].
    - intros [= ->]. reflexivity.
    - destruct (s_stream _); discriminate. }
  rewrite !trace_synthesize, !final_chunks_synthesize, closure_with_stream.
  destruct (set_stream_actions_of JSON_parse _ (default false b) evs [] path Hf)
    as [-> ->].
  assert (Hsetup : setup this (set_stream (closure text options uuid) (default false b)) =
                   setup this (closure text options uuid)).
  { unfold setup. cbn [set_stream s_fileStream]. rewrite Hf. reflexivity. }
  rewrite Hsetup. split; [reflexivity|]. split; [reflexivity|].
  rewrite (file_mode_setup this _ path Hs).
  intros [H|[H|H]]; try discriminate.
  exact (callbacks_never_resolve_with_stream _ _ _ _ H).
Qed.

Lemma file_mode_ignores_stream_witness :
  sink_of (closure "hello" file_options uuid0) = FileSink "/tmp/x.mp3" /\
  trace (synthesize JSON.parse engine "hello" (with_stream file_options (Some true)) uuid0
           [ws_open; binary AA; text_frame task_finished]) =
  trace (synthesize JSON.parse engine "hello" file_options uuid0
           [ws_open; binary AA; text_frame task_finished]).
Proof.
  split; [reflexivity|].
  apply (file_mode_ignores_stream JSON.parse engine "hello" file_options uuid0
           [ws_open; binary AA; text_frame task_finished] "/tmp/x.mp3" (Some true)).
  reflexivity.
Defined.

(** * Frames that change nothing, and frames that are lost *)

(** X14.  A [result-generated] frame, or a frame whose event is none of
    the four the handler knows (a missing event included), is only
    logged: the effects of the run, the state of the promise and
    [audioChunks] are those of the history without the frame. *)
Theorem inert_frame_changes_nothing JSON_parse this text options uuid evs1 evs2 data :
  inert JSON_parse data = true ->
  let run evs := synthesize JSON_parse this text options uuid evs in
  effects (trace (run (evs1 ++ ws_message data false :: evs2))) =
    effects (trace (run (evs1 ++ evs2))) /\
  promise_state (trace (run (evs1 ++ ws_message data false :: evs2))) =
    promise_state (trace (run (evs1 ++ evs2))) /\
  final_chunks (run (evs1 ++ ws_message data false :: evs2)) =
    final_chunks (run (evs1 ++ evs2)).
Proof.
  intros Hin run. subst run. cbv beta.
  rewrite !trace_synthesize, !final_chunks_synthesize.
  set (s := closure text options uuid).
  assert (Hstep : effects (actions_step JSON_parse s (ws_message data false)
                             (chunks_after s evs1 [])) = [] /\
                  chunks_step s (ws_message data false) (chunks_after s evs1 []) =
                  chunks_after s evs1 []).
  { split.
    - revert Hin. unfold inert. cbn [actions_step].
      destruct (classify JSON_parse data) as [e|ev tid [| | |errorMsg code| |]];
        try discriminate; reflexivity.
    - unfold chunks_step. destruct (s_fileStream s), (s_stream s); reflexivity. }
  destruct Hstep as [Heff Hch].
  assert (E : effects (setup this s ++
                       actions_of JSON_parse s (evs1 ++ ws_message data false :: evs2) []) =
              effects (setup this s ++ actions_of JSON_parse s (evs1 ++ evs2) [])).
  { rewrite !actions_of_app. cbn [actions_of]. rewrite Hch.
    rewrite !effects_app, Heff. reflexivity. }
  split; [exact E|]. split.
  - rewrite <- promise_state_effects, E. apply promise_state_effects.
  - rewrite !chunks_after_app. cbn [chunks_after]. rewrite Hch. reflexivity.
Qed.

Lemma inert_frame_changes_nothing_witness :
  inert JSON.parse generated_frame = true /\
  effects
    (trace (synthesize JSON.parse engine "hello" no_options uuid0
              ([ws_open; binary AA] ++
               ws_message generated_frame false :: [text_frame task_finished]))) =
  effects
    (trace (synthesize JSON.parse engine "hello" no_options uuid0
              ([ws_open; binary AA] ++ [text_frame task_finished]))).
Proof.
  split; [vm_compute; reflexivity|].
  apply (inert_frame_changes_nothing JSON.parse engine "hello" no_options uuid0
           [ws_open; binary AA] [text_frame task_finished] generated_frame).
  vm_compute. reflexivity.
Defined.

Lemma event_is_unreported JSON_parse data code :
  event_is JSON_parse data "task-failed" = true ->
  header_field JSON_parse data JS.error_code = Some code ->
  JS.ToString_throws code = true ->
  exists tid,
    classify JSON_parse data = Readable (JS.str "task-failed") tid FailedUnreported.
Proof.
  unfold event_is, header_field.
  destruct (classify JSON_parse data) as [|ev tid k] eqn:C; [discriminate|].
  intros H. apply strict_eq_string_true in H. subst ev.
  apply classify_readable in C as (msg & h & -> & -> & _ & _ & _ & _ & ->).
  destruct (JS.member h JS.error_code) as [code'|] eqn:Ec; [|discriminate].
  intros [= ->] Hcode. exists tid. unfold kind_of. cbn.
  rewrite Ec, Hcode. destruct (JS.member h JS.error_message); reflexivity.
Qed.

(** X15.  A [task-failed] frame whose [error_code] cannot be converted to
    a string (an object with a [toString] key) closes the transport and is
    then lost: the log line of the branch throws, the [catch] logs a parse
    error, and neither the promise nor the sink nor the file hears of the
    failure. *)
Theorem unconvertible_failure_is_lost JSON_parse this text options uuid evs data code :
  event_is JSON_parse data "task-failed" = true ->
  header_field JSON_parse data JS.error_code = Some code ->
  JS.ToString_throws code = true ->
  let run evs := synthesize JSON_parse this text options uuid evs in
  effects (trace (run (evs ++ [ws_message data false]))) =
    effects (trace (run evs)) ++ [ws_close] /\
  promise_state (trace (run (evs ++ [ws_message data false]))) =
    promise_state (trace (run evs)) /\
  finalization_count (trace (run (evs ++ [ws_message data false]))) =
    finalization_count (trace (run evs)).
Proof.
  intros Hev Hcode Tcode run. subst run. cbv beta.
  destruct (event_is_unreported _ _ _ Hev Hcode Tcode) as [tid C].
  rewrite trace_snoc. cbn [actions_step]. rewrite C. cbn [handled].
  split; [|split].
  - rewrite effects_app. reflexivity.
  - rewrite promise_state_app. apply settle_none. reflexivity.
  - rewrite finalization_count_app. cbn. lia.
Qed.

Lemma unconvertible_failure_is_lost_witness :
  event_is JSON.parse unconvertible_frame "task-failed" = true /\
  promise_state
    (trace (synthesize JSON.parse engine "hello" no_options uuid0
              ([ws_open] ++ [ws_message unconvertible_frame false]))) =
  promise_state (trace (synthesize JSON.parse engine "hello" no_options uuid0 [ws_open])).
Proof.
  split; [vm_compute; reflexivity|].
  apply (unconvertible_failure_is_lost JSON.parse engine "hello" no_options uuid0
           [ws_open] unconvertible_frame
           (JS.object [("toString", JS.str "code")]));
    vm_compute; reflexivity.
Defined.

(** * Connections and registration *)

Lemma connections_app tr1 tr2 :
  connections (tr1 ++ tr2) = connections tr1 ++ connections tr2.
Proof.
  induction tr1 as [|a tr1 IH]; cbn; [reflexivity|].
  destruct a; cbn; rewrite ?IH; reflexivity.
Qed.

Lemma files_created_app tr1 tr2 :
  files_created (tr1 ++ tr2) = files_created tr1 ++ files_created tr2.
Proof.
  induction tr1 as [|a tr1 IH]; cbn; [reflexivity|].
  destruct a; cbn; rewrite ?IH; reflexivity.
Qed.

Lemma no_connection_in_callbacks JSON_parse s evs chunks :
  connections (actions_of JSON_parse s evs chunks) = [] /\
  files_created (actions_of JSON_parse s evs chunks) = [].
Proof.
  revert chunks. induction evs as [|ev rest IH]; intros chunks; cbn [actions_of]; [auto|].
  rewrite connections_app, files_created_app.
  destruct (IH (chunks_step s ev chunks)) as [-> ->]. rewrite !app_nil_r.
  destruct ev as [|data [|]|err]; cbn [actions_step].
  - auto.
  - destruct (s_fileStream s), (s_stream s); auto.
  - destruct (classify JSON_parse data) as [e|ev tid [| | |errorMsg code| |]];
      cbn [handled]; unfold finish, fail;
      destruct (s_fileStream s), (s_stream s); auto.
  - unfold fail. destruct (s_fileStream s), (s_stream s); auto.
Qed.

(** X16.  A call of [synthesize] on an engine built from the key [key]
    opens exactly one connection, whatever happens afterwards: to the
    DashScope inference URL, with [Authorization: Bearer key] and the
    data inspection header.  It never reconnects, and it creates a file
    only in file mode, once. *)
Theorem one_connection_per_call JSON_parse key this text options uuid evs :
  new_CosyVoiceEngine key = inr this ->
  connections (trace (synthesize JSON_parse this text options uuid evs)) =
    [("wss://dashscope.aliyuncs.com/api-ws/v1/inference",
      [("Authorization", ("Bearer " ++ key)%string);
       ("X-DashScope-DataInspection", "enable")])] /\
  files_created (trace (synthesize JSON_parse this text options uuid evs)) =
    match sink_of (closure text options uuid) with
    | FileSink path => [path]
    | _ => []
    end.
Proof.
  unfold new_CosyVoiceEngine. destruct (String.eqb key EmptyString); [discriminate|].
  intros [= <-]. rewrite trace_synthesize, connections_app, files_created_app.
  destruct (no_connection_in_callbacks JSON_parse (closure text options uuid) evs [])
    as [-> ->].
  rewrite !app_nil_r. unfold setup, sink_of.
  destruct (s_fileStream _); [auto|]. destruct (s_stream _); auto.
Qed.

Lemma one_connection_per_call_witness :
  new_CosyVoiceEngine "sk-test" = inr engine /\
  files_created
    (trace (synthesize JSON.parse engine "hello" file_options uuid0
              [ws_open; binary AA; text_frame task_finished; ws_open])) =
  ["/tmp/x.mp3"].
Proof.
  split; [reflexivity|].
  apply (one_connection_per_call JSON.parse "sk-test" engine "hello" file_options uuid0
           [ws_open; binary AA; text_frame task_finished; ws_open]).
  reflexivity.
Defined.

(** X17.  [registerEngines] registers the Edge engine first and always;
    it registers a CosyVoice engine exactly when the flag is set and the
    key is a non-empty string, at most once, and then the constructor has
    succeeded with that key, so its missing-key error cannot come out of
    [registerEngines]. *)
Theorem register_engines_cosyvoice (c : Config) :
  hd_error (registerEngines c) = Some EdgeTts /\
  filter is_cosyvoice (registerEngines c) =
    (if REGISTER_COSYVOICE c && truthy_string (COSYVOICE_API_KEY c)
     then [CosyVoice
             (inr {| name := "cosyvoice";
                     apiKey := default EmptyString (COSYVOICE_API_KEY c);
                     url := "wss://dashscope.aliyuncs.com/api-ws/v1/inference" |})]
     else []) /\
  Forall (fun r => match r with
                   | CosyVoice (inl _) => False
                   | _ => True
                   end) (registerEngines c).
Proof.
  destruct c as [ro ok rk ku rc [key|]]; unfold registerEngines;
    cbn [REGISTER_OPENAI_TTS OPENAI_API_KEY REGISTER_KOKORO TTS_KOKORO_URL
         REGISTER_COSYVOICE COSYVOICE_API_KEY truthy_string default].
  - unfold new_CosyVoiceEngine.
    destruct ro, rk, rc, (String.eqb key EmptyString); cbn;
      repeat split; repeat constructor.
  - rewrite andb_false_r. destruct ro, rk; cbn; repeat split; repeat constructor.
Qed.
